(** * LandSnag: the Realtor16 provider client

    A shallow embedding of the provider client of the LandSnag repository
    (the token-bucket rate limiter of [lib/rateLimiter.ts] and the
    [RealtorProvider] class: hashing of search parameters, the cache
    lookup, the page fetch with its retry loop and the normalisation of
    raw listings), followed by the properties established about it.

    Conventions of the embedding.
    - A JavaScript number is a [number]: [NaN], the two infinities, or a
      finite value held as an exact rational.  Rounding to 53 bits,
      overflow of finite arithmetic and the sign of zero are outside the
      model.
    - A string is a sequence of code units below 256 ([string]).
    - A JavaScript object is an association list in property enumeration
      order; its keys are pairwise distinct.
    - The host functions the code calls but does not define (SHA-256,
      [JSON.stringify], [JSON.parse], [Number.prototype.toString],
      [Date] parsing, the haversine helper) are the fields of the class
      [Host]; what the upstream answers, what the cache holds, the clock
      and the results of [Math.random()] are the fields of a [World]. *)

From Stdlib Require Import ZArith QArith Qround String Ascii List Lia Lqa.
From Stdlib Require Import DecimalString.
From stdpp Require Import base list sorting gmap strings.

Set Warnings "-register-all".
Open Scope Z_scope.

(** ** JavaScript values *)

Module JS.

(** *** Numbers *)

Inductive number : Type :=
| NaN
| PInf
| NInf
| Fin (q : Q).

Definition of_Z (z : Z) : number := Fin (inject_Z z).

(** The result of [parseInt]: [None] is NaN. *)
Definition of_int (o : option Z) : number :=
  match o with
  | Some z => of_Z z
  | None => NaN
  end.

Definition Qltb (a b : Q) : bool := negb (Qle_bool b a).

Definition neg (a : number) : number :=
  match a with
  | NaN => NaN
  | PInf => NInf
  | NInf => PInf
  | Fin q => Fin (Qred (- q))
  end.

Definition add (a b : number) : number :=
  match a, b with
  | NaN, _ | _, NaN => NaN
  | PInf, NInf | NInf, PInf => NaN
  | PInf, _ | _, PInf => PInf
  | NInf, _ | _, NInf => NInf
  | Fin x, Fin y => Fin (Qred (x + y))
  end.

Definition sub (a b : number) : number := add a (neg b).

(** The sign of a rational: [Lt], [Eq] or [Gt] with respect to zero. *)
Definition Qsign (q : Q) : comparison := (Qnum q ?= 0)%Z.

Definition signed_inf (positive : bool) : number :=
  if positive then PInf else NInf.

Definition mul_inf (positive : bool) (q : Q) : number :=
  match Qsign q with
  | Eq => NaN
  | Gt => signed_inf positive
  | Lt => signed_inf (negb positive)
  end.

Definition mul (a b : number) : number :=
  match a, b with
  | NaN, _ | _, NaN => NaN
  | PInf, PInf | NInf, NInf => PInf
  | PInf, NInf | NInf, PInf => NInf
  | PInf, Fin q | Fin q, PInf => mul_inf true q
  | NInf, Fin q | Fin q, NInf => mul_inf false q
  | Fin x, Fin y => Fin (Qred (x * y))
  end.

Definition div (a b : number) : number :=
  match a, b with
  | NaN, _ | _, NaN => NaN
  | (PInf | NInf), (PInf | NInf) => NaN
  | Fin _, (PInf | NInf) => Fin 0%Q
  | PInf, Fin q => signed_inf (negb (Qltb q 0))
  | NInf, Fin q => signed_inf (Qltb q 0)
  | Fin x, Fin y =>
      match Qsign y with
      | Eq => match Qsign x with
              | Eq => NaN
              | Gt => PInf
              | Lt => NInf
              end
      | _ => Fin (Qred (x / y))
      end
  end.

(** [a < b]; every comparison with NaN is false. *)
Definition ltb (a b : number) : bool :=
  match a, b with
  | NaN, _ | _, NaN => false
  | _, NInf => false
  | NInf, _ => true
  | PInf, _ => false
  | _, PInf => true
  | Fin x, Fin y => Qltb x y
  end.

Definition leb (a b : number) : bool :=
  match a, b with
  | NaN, _ | _, NaN => false
  | NInf, _ => true
  | _, PInf => true
  | _, NInf => false
  | PInf, _ => false
  | Fin x, Fin y => Qle_bool x y
  end.

Definition gtb (a b : number) : bool := ltb b a.
Definition geb (a b : number) : bool := leb b a.

(** [a === b] on numbers: NaN differs from itself. *)
Definition strict_eqb (a b : number) : bool :=
  match a, b with
  | PInf, PInf | NInf, NInf => true
  | Fin x, Fin y => Qeq_bool x y
  | _, _ => false
  end.

Definition isNaN (a : number) : bool :=
  match a with
  | NaN => true
  | _ => false
  end.

(** [Math.min] and [Math.max] of two arguments. *)
Definition min (a b : number) : number :=
  match a, b with
  | NaN, _ | _, NaN => NaN
  | _, _ => if leb a b then a else b
  end.

Definition max (a b : number) : number :=
  match a, b with
  | NaN, _ | _, NaN => NaN
  | _, _ => if leb a b then b else a
  end.

Definition floor (a : number) : number :=
  match a with
  | Fin q => of_Z (Qfloor q)
  | _ => a
  end.

Definition ceil (a : number) : number :=
  match a with
  | Fin q => of_Z (Qceiling q)
  | _ => a
  end.

(** [Math.pow(2, n)] for a loop counter [n >= 0]. *)
Definition pow2 (n : Z) : number := of_Z (2 ^ n).

Definition truthy_number (a : number) : bool :=
  match a with
  | NaN => false
  | Fin q => negb (Qeq_bool q 0)
  | _ => true
  end.


(** [a || b] on numbers. *)
Definition or_number (a b : number) : number :=
  if truthy_number a then a else b.

(** *** Reading numbers from strings *)

Definition is_digit (c : ascii) : bool :=
  let n := N_of_ascii c in ((48 <=? n) && (n <=? 57))%N.

Definition digit_value (c : ascii) : Z := Z.of_N (N_of_ascii c) - 48.

(** White space as [parseInt] and [parseFloat] skip it (code units
    below 256). *)
Definition is_space (c : ascii) : bool :=
  let n := N_of_ascii c in
  ((9 <=? n) && (n <=? 13) || (n =? 32) || (n =? 160))%N.

Fixpoint trim_start (s : string) : string :=
  match s with
  | String c r => if is_space c then trim_start r else s
  | EmptyString => s
  end.

(** The longest prefix of digits, and what follows it. *)
Fixpoint span_digits (s : string) : string * string :=
  match s with
  | String c r =>
      if is_digit c
      then let '(ds, rest) := span_digits r in (String c ds, rest)
      else (EmptyString, s)
  | EmptyString => (EmptyString, EmptyString)
  end.

Fixpoint digits_value (acc : Z) (ds : string) : Z :=
  match ds with
  | String c r => digits_value (10 * acc + digit_value c) r
  | EmptyString => acc
  end.


(** An optional sign: whether it is a minus, and what follows it. *)
Definition read_sign (s : string) : bool * string :=
  match s with
  | String "-" r => (true, r)
  | String "+" r => (false, r)
  | _ => (false, s)
  end.

Definition apply_sign (minus : bool) (z : Z) : Z :=
  if minus then - z else z.

(** [parseInt(s, 10)]. *)
Definition parseInt (s : string) : option Z :=
  let '(minus, s1) := read_sign (trim_start s) in
  let '(ds, _) := span_digits s1 in
  match ds with
  | EmptyString => None
  | _ => Some (apply_sign minus (digits_value 0 ds))
  end.

(** The exponent part [e[+-]digits] at the head of [s], 0 when there is
    none. *)
Definition read_exponent (s : string) : Z :=
  match s with
  | String c r =>
      if (Ascii.eqb c "e" || Ascii.eqb c "E")%bool
      then
        let '(minus, r1) := read_sign r in
        let '(ds, _) := span_digits r1 in
        match ds with
        | EmptyString => 0
        | _ => apply_sign minus (digits_value 0 ds)
        end
      else 0
  | EmptyString => 0
  end.

(** [mant * 10^scale] as a rational. *)
Definition decimal (mant scale : Z) : Q :=
  if (0 <=? scale)%Z
  then inject_Z (mant * 10 ^ scale)
  else Qred (Qmake mant (Z.to_pos (10 ^ (- scale)))).

(** [parseFloat(s)]: the longest prefix of [s] that is a decimal
    literal. *)
Definition parseFloat (s : string) : number :=
  let '(minus, s1) := read_sign (trim_start s) in
  if String.prefix "Infinity" s1 then signed_inf (negb minus)
  else
    let '(ip, r1) := span_digits s1 in
    let '(fp, r2) :=
      match r1 with
      | String "." r => span_digits r
      | _ => (EmptyString, r1)
      end in
    match (ip ++ fp)%string with
    | EmptyString => NaN
    | ds =>
        let scale := read_exponent r2 - Z.of_nat (String.length fp) in
        Fin (decimal (apply_sign minus (digits_value 0 ds)) scale)
    end.

(** *** Values *)

Inductive value : Type :=
| Undefined
| Null
| Bool (b : bool)
| Num (n : number)
| Str (s : string)
| Arr (items : list value)
| Obj (fields : list (string * value)).

Definition object : Type := list (string * value).

Definition truthy (v : value) : bool :=
  match v with
  | Undefined | Null => false
  | Bool b => b
  | Num n => truthy_number n
  | Str s => negb (String.eqb s EmptyString)
  | Arr _ | Obj _ => true
  end.

(** [a || b]. *)
Definition or_else (a b : value) : value := if truthy a then a else b.

Definition is_nullish (v : value) : bool :=
  match v with
  | Undefined | Null => true
  | _ => false
  end.

(** [o[k]] on the fields of an object, [undefined] when absent. *)
Fixpoint lookup_field (k : string) (o : object) : value :=
  match o with
  | (k', v) :: rest => if String.eqb k k' then v else lookup_field k rest
  | [] => Undefined
  end.

(** [v.k] for a property name [k] that no prototype defines and that is
    neither an index nor [length]: [None] is the TypeError raised on
    [null] and [undefined]. *)
Definition get (v : value) (k : string) : option value :=
  match v with
  | Undefined | Null => None
  | Obj o => Some (lookup_field k o)
  | _ => Some Undefined
  end.

(** [v?.k] under the same proviso. *)
Definition get_opt (v : value) (k : string) : value :=
  match get v k with
  | Some x => x
  | None => Undefined
  end.

(** [typeof v === 'string']. *)
Definition is_string (v : value) : bool :=
  match v with
  | Str _ => true
  | _ => false
  end.

End JS.

(** ** The token bucket ([lib/rateLimiter.ts]) *)

Module RateLimiter.

Import JS.

Record TokenBucketLimiter : Type := {
  tokens : number;
  lastRefill : Z;
  capacity : number;
  refillRate : number   (* tokens per millisecond *)
}.

(** [new TokenBucketLimiter(capacity, refillRate)] at time [now]. *)
Definition create (capacity refillRate : number) (now : Z)
  : TokenBucketLimiter :=
  {| tokens := capacity; lastRefill := now;
     capacity := capacity; refillRate := refillRate |}.

Definition set_tokens (t : number) (l : TokenBucketLimiter)
  : TokenBucketLimiter :=
  {| tokens := t; lastRefill := lastRefill l;
     capacity := capacity l; refillRate := refillRate l |}.

(** [refill()] when [Date.now()] is [now]. *)
Definition refill (now : Z) (l : TokenBucketLimiter) : TokenBucketLimiter :=
  let elapsed := of_Z (now - lastRefill l) in
  let tokensToAdd := mul elapsed (refillRate l) in
  if gtb tokensToAdd (of_Z 0)
  then {| tokens := min (capacity l) (add (tokens l) tokensToAdd);
          lastRefill := now;
          capacity := capacity l; refillRate := refillRate l |}
  else l.

(** The bucket holds a finite number of tokens, at most its capacity. *)
Definition within_capacity (l : TokenBucketLimiter) : Prop :=
  exists c t, capacity l = Fin c /\ tokens l = Fin t /\ (t <= c)%Q.

(** The bucket holds a finite, non-negative number of tokens. *)
Definition not_overdrawn (l : TokenBucketLimiter) : Prop :=
  exists t, tokens l = Fin t /\ (0 <= t)%Q.

(** [this.tokens -= 1]. *)
Definition consume (l : TokenBucketLimiter) : TokenBucketLimiter :=
  set_tokens (sub (tokens l) (of_Z 1)) l.

(** [waitForToken] has one suspension point.  Up to it the call either
    takes a token and returns, or asks the host for a timer. *)
Inductive progress : Type :=
| Granted
| Suspended (waitTime : number).

Definition waitForToken_enter (now : Z) (l : TokenBucketLimiter)
  : TokenBucketLimiter * progress :=
  let l1 := refill now l in
  if geb (tokens l1) (of_Z 1) then (consume l1, Granted)
  else
    let tokensNeeded := sub (of_Z 1) (tokens l1) in
    let waitTime := ceil (div tokensNeeded (refillRate l1)) in
    (l1, Suspended waitTime).

(** The rest of [waitForToken], run when the timer fires at [now]. *)
Definition waitForToken_resume (now : Z) (l : TokenBucketLimiter)
  : TokenBucketLimiter :=
  consume (refill now l).

(** The delay [setTimeout(f, ms)] schedules, in whole milliseconds:
    a delay that is NaN, below 1 or above 2^31 - 1 becomes 1. *)
Definition timer_delay (ms : number) : Z :=
  match ms with
  | Fin q =>
      if (Qle_bool 1 q && Qle_bool q 2147483647)%bool then Qfloor q else 1
  | _ => 1
  end.

(** *** One caller at a time

    [waitForToken] run to completion by a single caller entering at
    [now], whose timer (if any) fires [late] milliseconds after it is
    due.  The result carries the time at which the call returns. *)
Definition waitForToken (now late : Z) (l : TokenBucketLimiter)
  : TokenBucketLimiter * Z :=
  match waitForToken_enter now l with
  | (l1, Granted) => (l1, now)
  | (l1, Suspended w) =>
      let wake := now + timer_delay w + late in
      (waitForToken_resume wake l1, wake)
  end.

(** *** Interleaved callers

    Under cooperative scheduling the callers of one limiter interleave
    at the suspension point only.  A schedule is a list of events: a
    new call to [waitForToken], or the firing of the timer of a
    suspended call. *)
Inductive event : Type :=
| Call (now : Z)
| Wake (now : Z).

Record sched : Type := {
  bucket : TokenBucketLimiter;
  timers : list Z;          (* due times of the suspended calls *)
  clock : Z;                (* time of the last event *)
  completed : nat           (* calls that have returned *)
}.

Definition start (l : TokenBucketLimiter) (now : Z) : sched :=
  {| bucket := l; timers := []; clock := now; completed := 0 |}.

(** Removes one timer that is due at [now], if there is one. *)
Fixpoint fire (now : Z) (ts : list Z) : option (list Z) :=
  match ts with
  | t :: rest =>
      if (t <=? now)%Z then Some rest
      else option_map (cons t) (fire now rest)
  | [] => None
  end.

(** One event; [None] when the schedule is impossible (time running
    backwards, or no timer due). *)
Definition step (s : sched) (e : event) : option sched :=
  match e with
  | Call now =>
      if (clock s <=? now)%Z then
        match waitForToken_enter now (bucket s) with
        | (l1, Granted) =>
            Some {| bucket := l1; timers := timers s; clock := now;
                    completed := S (completed s) |}
        | (l1, Suspended w) =>
            Some {| bucket := l1;
                    timers := timers s ++ [now + timer_delay w];
                    clock := now; completed := completed s |}
        end
      else None
  | Wake now =>
      if (clock s <=? now)%Z then
        match fire now (timers s) with
        | Some ts =>
            Some {| bucket := waitForToken_resume now (bucket s);
                    timers := ts; clock := now;
                    completed := S (completed s) |}
        | None => None
        end
      else None
  end.

Fixpoint run (s : sched) (es : list event) : option sched :=
  match es with
  | e :: rest =>
      match step s e with
      | Some s1 => run s1 rest
      | None => None
      end
  | [] => Some s
  end.

(** *** The registry of limiters, one per provider name *)

Record ProviderRateLimiter : Type := {
  limiters : gmap string TokenBucketLimiter;
  defaultCapacity : number;
  defaultRefillRate : number
}.

Definition getLimiter (providerName : string) (now : Z)
    (r : ProviderRateLimiter) : ProviderRateLimiter :=
  match limiters r !! providerName with
  | Some _ => r
  | None =>
      {| limiters :=
           <[providerName :=
               create (defaultCapacity r) (defaultRefillRate r) now]>
             (limiters r);
         defaultCapacity := defaultCapacity r;
         defaultRefillRate := defaultRefillRate r |}
  end.

(** [process.env.NAME || fallback]. *)
Definition env_or (env : gmap string string) (name fallback : string)
  : string :=
  match env !! name with
  | Some v => if String.eqb v EmptyString then fallback else v
  | None => fallback
  end.

(** The module-level [providerRateLimiter]. *)
Definition providerRateLimiter (env : gmap string string)
  : ProviderRateLimiter :=
  {| limiters := ∅;
     defaultCapacity :=
       of_int (parseInt (env_or env "PROVIDER_RATE_LIMIT_CAPACITY" "30"));
     defaultRefillRate :=
       parseFloat (env_or env "PROVIDER_RATE_LIMIT_REFILL_RATE" "0.5") |}.

(** [getRateLimiter(providerName)] on the registry [r]. *)
Definition getRateLimiter (providerName : string) (now : Z)
    (r : ProviderRateLimiter) : ProviderRateLimiter :=
  getLimiter providerName now r.

End RateLimiter.

(** ** The provider ([providers/RealtorProvider.ts]): its pure parts *)

Module Realtor.

Import JS RateLimiter.

Record GeoJSONGeometry : Type := {
  geometry_type : string;
  coordinates : list (list (number * number))
}.

Record GeoJSONFeature : Type := {
  feature_type : string;
  geometry : GeoJSONGeometry;
  properties : object
}.

(** The host functions the provider relies on. *)
Class Host : Type := {
  (** [crypto.createHash('sha256').update(s).digest('hex')] *)
  sha256_hex : string -> string;
  JSON_stringify : value -> string;
  (** [JSON.parse(s) as GeoJSONFeature[]]; [None] is a SyntaxError *)
  JSON_parse_features : string -> option (list GeoJSONFeature);
  (** [n.toString()] of a number *)
  Number_toString : number -> string;
  (** the conversion of a string to a number (the abstract operation
      applied by [/] and [>=]) *)
  StringToNumber : string -> number;
  (** [new Date(s).getTime()] *)
  Date_getTime : string -> number;
  (** [x.toString(36).substr(2, 9)] of a result [x] of [Math.random()] *)
  random_id : number -> string;
  (** the query of [bboxToCenterAndRadius]: [lat], [lon], [radiusKm] *)
  bboxToCenterAndRadius : value -> number * number * number
}.

(** *** Objects in enumeration order *)

(** The keys that are array indices (canonical numerals up to
    2^32 - 2) enumerate first, in ascending order. *)
Definition array_index (k : string) : option Z :=
  match k with
  | EmptyString => None
  | String c r =>
      if (forallb is_digit (list_ascii_of_string k)
          && (negb (Ascii.eqb c "0") || String.eqb r EmptyString))%bool
      then
        let n := digits_value 0 k in
        if (n <=? 4294967294)%Z then Some n else None
      else None
  end.

Definition has_field (k : string) (o : object) : bool :=
  existsb (fun kv => String.eqb k (fst kv)) o.

Fixpoint update_field (k : string) (v : value) (o : object) : object :=
  match o with
  | (k', v') :: rest =>
      if String.eqb k k' then (k, v) :: rest
      else (k', v') :: update_field k v rest
  | [] => []
  end.

(** Whether a new key with index [i] enumerates before the key [k']. *)
Definition index_before (i : Z) (k' : string) : bool :=
  match array_index k' with
  | Some j => (i <? j)%Z
  | None => true
  end.

Fixpoint insert_index (i : Z) (k : string) (v : value) (o : object)
  : object :=
  match o with
  | (k', v') :: rest =>
      if index_before i k' then (k, v) :: o
      else (k', v') :: insert_index i k v rest
  | [] => [(k, v)]
  end.

(** [o[k] = v]. *)
Definition set_field (k : string) (v : value) (o : object) : object :=
  if has_field k o then update_field k v o
  else
    match array_index k with
    | Some i => insert_index i k v o
    | None => o ++ [(k, v)]
    end.

Definition Object_keys (o : object) : list string := map fst o.

(** The order of [Array.prototype.sort()] without a comparator. *)
Definition key_le (a b : string) : Prop := Is_true (String.leb a b).

Definition sort_keys (ks : list string) : list string :=
  merge_sort key_le ks.

(** *** Conversions *)

Definition bool_to_string (b : bool) : string :=
  if b then "true" else "false".

Definition join (sep : string) (parts : list string) : string :=
  String.concat sep parts.

Section WithHost.

Context `{Host}.

(** [String(v)]. *)
Fixpoint to_string (v : value) : string :=
  match v with
  | Undefined => "undefined"
  | Null => "null"
  | Bool b => bool_to_string b
  | Num n => Number_toString n
  | Str s => s
  | Arr items =>
      join ","
        (map (fun x => if is_nullish x then EmptyString else to_string x)
           items)
  | Obj _ => "[object Object]"
  end.

(** [Number(v)]. *)
Definition to_number (v : value) : number :=
  match v with
  | Undefined => NaN
  | Null => of_Z 0
  | Bool b => of_Z (if b then 1 else 0)
  | Num n => n
  | Str s => StringToNumber s
  | Arr _ | Obj _ => StringToNumber (to_string v)
  end.

(** [parseFloat(v)], that is [parseFloat(String(v))].  A number
    prints to a string that reads back as the same number. *)
Definition parseFloat_of (v : value) : number :=
  match v with
  | Num n => n
  | _ => parseFloat (to_string v)
  end.

(** *** computeHash *)

Definition sortedParams (params : object) : object :=
  fold_left
    (fun acc key => set_field key (lookup_field key params) acc)
    (sort_keys (Object_keys params))
    [].

Definition computeHash (params : object) : string :=
  sha256_hex (JSON_stringify (Obj (sortedParams params))).

(** *** transformListing *)

(** [s.replace(/[^0-9.]/g, '')]. *)
Definition keeps_price_char (c : ascii) : bool :=
  (is_digit c || Ascii.eqb c ".")%bool.

Fixpoint strip_price (s : string) : string :=
  match s with
  | String c r =>
      if keeps_price_char c then String c (strip_price r)
      else strip_price r
  | EmptyString => EmptyString
  end.

(** [listing.price || listing.list_price || '0'] *)
Definition rawPrice (price list_price : value) : value :=
  or_else price (or_else list_price (Str "0")).

(** [Math.floor(parseFloat(cleanedPrice) || 0)], where [cleanedPrice]
    is the stripped string when [raw] is a string and
    [raw.toString()] otherwise. *)
Definition parsePrice (raw : value) : number :=
  let parsed :=
    match raw with
    | Str s => parseFloat (strip_price s)
    | _ => parseFloat_of raw
    end in
  floor (or_number parsed (of_Z 0)).

(** The side of the square, in degrees. *)
Definition d : number := Fin (1 # 10000).

Definition square (lon lat : number) : list (list (number * number)) :=
  [[ (sub lon d, sub lat d);
     (add lon d, sub lat d);
     (add lon d, add lat d);
     (sub lon d, add lat d);
     (sub lon d, sub lat d) ]].

(** [{...listing}]: the own enumerable properties of [listing]. *)
Fixpoint indexed (i : nat) (items : list value) : object :=
  match items with
  | x :: rest =>
      (NilEmpty.string_of_uint (Nat.to_uint i), x) :: indexed (S i) rest
  | [] => []
  end.

Fixpoint chars (s : string) : list value :=
  match s with
  | String c r => Str (String c EmptyString) :: chars r
  | EmptyString => []
  end.

Definition spread (v : value) : object :=
  match v with
  | Obj o => o
  | Arr items => indexed 0 items
  | Str s => indexed 0 (chars s)
  | _ => []
  end.

(** Whether [transformListing] calls [Math.random()]. *)
Definition draws_random (listing : value) : bool :=
  negb (truthy (or_else (get_opt listing "listing_id")
                  (get_opt listing "id"))).

Definition beds_of (beds : value) : value :=
  match beds with
  | Str s => Num (or_number (of_int (parseInt s)) (of_Z 0))
  | _ => or_else beds (Num (of_Z 0))
  end.

Definition baths_of (baths : value) : value :=
  match baths with
  | Str s => Num (or_number (parseFloat s) (of_Z 0))
  | _ => or_else baths (Num (of_Z 0))
  end.

(** [listing.latitude || listing.lat ||
    listing.location?.address?.coordinate?.lat], and the same for the
    longitude. *)
Definition coordinate_of (listing : value) : value :=
  get_opt (get_opt (get_opt listing "location") "address") "coordinate".

Definition latVal (listing : value) : value :=
  or_else (get_opt listing "latitude")
    (or_else (get_opt listing "lat") (get_opt (coordinate_of listing) "lat")).

Definition lonVal (listing : value) : value :=
  or_else (get_opt listing "longitude")
    (or_else (get_opt listing "lon") (get_opt (coordinate_of listing) "lon")).

(** [transformListing(listing)], where [rnd] is what [Math.random()]
    returns if it is called.  [None] is the TypeError raised by
    [listing.latitude] on [null] and [undefined]. *)
Definition transformListing (rnd : number) (listing : value)
  : option GeoJSONFeature :=
  if is_nullish listing then None
  else
    let field := get_opt listing in
    let lat := parseFloat_of (latVal listing) in
    let lon := parseFloat_of (lonVal listing) in
    let price := parsePrice (rawPrice (field "price") (field "list_price")) in
    let listing_id :=
      to_string
        (or_else (field "listing_id")
           (or_else (field "id") (Str (random_id rnd)))) in
    Some
      {| feature_type := "Feature";
         geometry :=
           {| geometry_type := "Polygon"; coordinates := square lon lat |};
         properties :=
           set_field "source" (Str "realtor16")
             (set_field "baths" (baths_of (field "baths"))
                (set_field "beds" (beds_of (field "beds"))
                   (set_field "price" (Num price)
                      (set_field "listing_id" (Str listing_id)
                         (spread listing))))) |}.

(** *** What makes a ring a valid closed polygon *)

(** [p === q] on both coordinates. *)
Definition same_position (p q : number * number) : bool :=
  strict_eqb (fst p) (fst q) && strict_eqb (snd p) (snd q).

Definition numeric_position (p : number * number) : bool :=
  negb (isNaN (fst p)) && negb (isNaN (snd p)).

(** The first and the last position of the ring are equal. *)
Definition closed_ring (ring : list (number * number)) : bool :=
  match ring, last ring with
  | first :: _, Some final => same_position first final
  | _, _ => false
  end.

(** A polygon of one ring of exactly 5 positions, each a pair of
    numbers, the first and the last equal. *)
Definition valid_closed_polygon (g : GeoJSONGeometry) : bool :=
  String.eqb (geometry_type g) "Polygon"
  && match coordinates g with
     | [ring] =>
         (length ring =? 5)%nat && forallb numeric_position ring
         && closed_ring ring
     | _ => false
     end.

(** *** The schema of the search parameters *)

(** [z.number()]: a number other than NaN. *)
Definition z_number (v : value) : bool :=
  match v with
  | Num n => negb (isNaN n)
  | _ => false
  end.

(** [z.number().int()]. *)
Definition z_int (v : value) : bool :=
  match v with
  | Num (Fin q) => Qeq_bool q (inject_Z (Qfloor q))
  | _ => false
  end.

Definition z_string (v : value) : bool := is_string v.

Definition z_optional (inner : value -> bool) (v : value) : bool :=
  match v with
  | Undefined => true
  | _ => inner v
  end.

(** [z.tuple([z.number(), z.number(), z.number(), z.number()])]. *)
Definition z_bbox (v : value) : bool :=
  match v with
  | Arr [a; b; c; e] => z_number a && z_number b && z_number c && z_number e
  | _ => false
  end.

(** [SearchParamsSchema.safeParse(params).success]; [polygon] is
    [z.any()]. *)
Definition SearchParamsSchema (params : object) : bool :=
  z_optional z_bbox (lookup_field "bbox" params)
  && z_optional z_string (lookup_field "city" params)
  && z_optional z_string (lookup_field "state" params)
  && z_optional z_string (lookup_field "zip" params)
  && z_optional z_int (lookup_field "radius" params).

End WithHost.

(** *** The world the provider acts on *)

Record Response : Type := {
  status : Z;
  (** [headers.get(name)]: a string, or [null] *)
  headers : string -> value;
  (** what [response.json()] resolves to; [None] when it rejects *)
  json : option value
}.

(** [response.ok]. *)
Definition ok (r : Response) : bool :=
  ((200 <=? status r) && (status r <=? 299))%Z.

(** What [fetch] settles to. *)
Inductive fetch_result : Type :=
| Resolved (r : Response)
| Rejected (message : string).

(** The URL of a request: the endpoint and the query parameters in
    the order they are appended. *)
Record Request : Type := {
  endpoint : string;
  query : list (string * string)
}.

Inductive cache_op : Type := FindUnique | Delete | Upsert.

Record CacheRow : Type := {
  payload : string;
  createdAt : Z
}.

Inductive error : Type :=
| InvalidSearchParameters
| TooManyRequests (maxRetries : option Z)
| UpstreamStatus (status : Z)
| NetworkFailure (message : string)
| BodySyntaxError
| FetchExhausted (page : Z)
| CacheFailure (op : cache_op)
| PayloadSyntaxError
| TypeError.

(** What the provider does to its collaborators, most recent first. *)
Inductive effect : Type :=
| TokenTaken
| Fetched (req : Request)
| Slept (ms : number)
| CacheRead (hash : string)
| CacheDeleted (hash : string)
| CacheWritten (hash : string) (payload : string).

Record World : Type := {
  now : Z;                                  (* [Date.now()] *)
  registry : ProviderRateLimiter;
  rows : gmap string CacheRow;              (* the cache table *)
  cache_rejects : cache_op -> bool;         (* the ORM call rejects *)
  upstream : nat -> Request -> fetch_result; (* the n-th [fetch] *)
  entropy : nat -> number;                  (* the n-th [Math.random()] *)
  drawn : nat;
  trace : list effect
}.

Definition set_now (t : Z) (w : World) : World :=
  {| now := t; registry := registry w; rows := rows w;
     cache_rejects := cache_rejects w; upstream := upstream w;
     entropy := entropy w; drawn := drawn w; trace := trace w |}.

Definition set_registry (r : ProviderRateLimiter) (w : World) : World :=
  {| now := now w; registry := r; rows := rows w;
     cache_rejects := cache_rejects w; upstream := upstream w;
     entropy := entropy w; drawn := drawn w; trace := trace w |}.

Definition set_rows (m : gmap string CacheRow) (w : World) : World :=
  {| now := now w; registry := registry w; rows := m;
     cache_rejects := cache_rejects w; upstream := upstream w;
     entropy := entropy w; drawn := drawn w; trace := trace w |}.

Definition set_drawn (n : nat) (w : World) : World :=
  {| now := now w; registry := registry w; rows := rows w;
     cache_rejects := cache_rejects w; upstream := upstream w;
     entropy := entropy w; drawn := n; trace := trace w |}.

Definition record (e : effect) (w : World) : World :=
  {| now := now w; registry := registry w; rows := rows w;
     cache_rejects := cache_rejects w; upstream := upstream w;
     entropy := entropy w; drawn := drawn w; trace := e :: trace w |}.

Definition is_fetch (e : effect) : bool :=
  match e with
  | Fetched _ => true
  | _ => false
  end.

(** The number of [fetch] calls issued so far. *)
Definition fetch_count (w : World) : nat :=
  length (List.filter is_fetch (trace w)).

(** *** Computations: state, exceptions, and a bound on the pages *)

Inductive outcome (A : Type) : Type :=
| Return (a : A)
| Throw (e : error)
| OutOfFuel.

Arguments Return {A} a.
Arguments Throw {A} e.
Arguments OutOfFuel {A}.

Definition M (A : Type) : Type := World -> outcome A * World.

Definition ret {A} (a : A) : M A := fun w => (Return a, w).

Definition throw {A} (e : error) : M A := fun w => (Throw e, w).

Definition bind {A B} (c : M A) (k : A -> M B) : M B :=
  fun w =>
    match c w with
    | (Return a, w1) => k a w1
    | (Throw e, w1) => (Throw e, w1)
    | (OutOfFuel, w1) => (OutOfFuel, w1)
    end.

(** [try { c } catch (e) { handler e }], continued by [k] when [c]
    completes. *)
Definition try_catch {A B} (c : M A) (k : A -> M B)
    (handler : error -> M B) : M B :=
  fun w =>
    match c w with
    | (Return a, w1) => k a w1
    | (Throw e, w1) => handler e w1
    | (OutOfFuel, w1) => (OutOfFuel, w1)
    end.

(** [await new Promise(resolve => setTimeout(resolve, ms))]. *)
Definition sleep (ms : number) : M unit :=
  fun w =>
    (Return tt, record (Slept ms) (set_now (now w + timer_delay ms) w)).

(** [Math.random()]. *)
Definition random : M number :=
  fun w => (Return (entropy w (drawn w)), set_drawn (S (drawn w)) w).

(** [fetch(url, ...)]. *)
Definition fetch (req : Request) : M Response :=
  fun w =>
    let w1 := record (Fetched req) w in
    match upstream w (fetch_count w) req with
    | Resolved r => (Return r, w1)
    | Rejected m => (Throw (NetworkFailure m), w1)
    end.

Notation "'let*' x ':=' c 'in' k" := (bind c (fun x => k))
  (at level 10, x name, c at level 100, k at level 200).
Notation "c ';;' k" := (bind c (fun _ => k))
  (at level 100, k at level 200, right associativity).

(** [w'] is a later state of [w]: the collaborators are the same and
    the trace has only grown. *)
Definition evolves (w w' : World) : Prop :=
  upstream w' = upstream w
  /\ cache_rejects w' = cache_rejects w
  /\ entropy w' = entropy w
  /\ exists new, trace w' = (new ++ trace w)%list.

(** [w'] is a later state of [w] in which [n] more requests have been
    sent and the cache is as it was. *)
Definition after_fetches (n : nat) (w w' : World) : Prop :=
  upstream w' = upstream w
  /\ fetch_count w' = (fetch_count w + n)%nat
  /\ cache_rejects w' = cache_rejects w
  /\ rows w' = rows w.

(** A computation that leaves every world in a later state. *)
Definition steady {A} (c : M A) : Prop :=
  forall w, evolves w (snd (c w)).

(** ** The provider: construction, [fetchPage] and [search] *)

Record RealtorProvider : Type := {
  apiKey : string;
  ttlHours : option Z;           (* [parseInt]: [None] is NaN *)
  initialBackoffMs : option Z;
  maxRetries : option Z
}.

Definition providerName : string := "realtor16".

Definition baseUrl : string := "https://realtor16.p.rapidapi.com".

(** The constructor, reading the environment [env] at time [t0]: the
    provider, and the registry after [getRateLimiter(providerName)]. *)
Definition constructor (env : gmap string string) (t0 : Z)
    (r : ProviderRateLimiter) : RealtorProvider * ProviderRateLimiter :=
  let maxCallsPerMin :=
    parseInt (env_or env "REALTOR_MAX_CALLS_PER_MIN" "30") in
  ({| apiKey := env_or env "REALTOR_API_KEY" EmptyString;
      ttlHours := parseInt (env_or env "REALTOR_TTL_HOURS" "24");
      initialBackoffMs :=
        parseInt (env_or env "REALTOR_INITIAL_BACKOFF_MS" "500");
      maxRetries := parseInt (env_or env "REALTOR_MAX_RETRIES" "5") |},
   getRateLimiter providerName t0 r).

Section Provider.

Context `{Host}.

Variable this : RealtorProvider.

(** [this.limiter]: the limiter registered under the provider's
    name. *)
Definition limiter (w : World) : TokenBucketLimiter :=
  match limiters (registry w) !! providerName with
  | Some l => l
  | None =>
      create (defaultCapacity (registry w))
        (defaultRefillRate (registry w)) (now w)
  end.

Definition set_limiter (l : TokenBucketLimiter) (w : World) : World :=
  set_registry
    {| limiters := <[providerName := l]> (limiters (registry w));
       defaultCapacity := defaultCapacity (registry w);
       defaultRefillRate := defaultRefillRate (registry w) |}
    w.

(** [await this.limiter.waitForToken()]; the timer fires when due. *)
Definition acquire : M unit :=
  fun w =>
    let '(l1, t1) := waitForToken (now w) 0 (limiter w) in
    (Return tt, record TokenTaken (set_limiter l1 (set_now t1 w))).

(** [params.radius?.toString() || '10'] *)
Definition radius_param (radius : value) : string :=
  if is_nullish radius then "10"
  else
    let s := to_string radius in
    if String.eqb s EmptyString then "10" else s.

(** The URL [fetchPage] builds; [None] when the parameters name no
    endpoint. *)
Definition request_of (params : object) (page : Z) : option Request :=
  let field k := lookup_field k params in
  let paging := [("page", Number_toString (of_Z page)); ("limit", "40")] in
  if truthy (field "bbox") then
    let '(lat, lon, radiusKm) := bboxToCenterAndRadius (field "bbox") in
    Some {| endpoint := baseUrl ++ "/properties/coordinates";
            query := paging ++ [("lat", Number_toString lat);
                                ("lon", Number_toString lon);
                                ("radius", Number_toString radiusKm)] |}
  else if (truthy (field "city") && truthy (field "state"))%bool then
    Some {| endpoint := baseUrl ++ "/properties/city";
            query := paging ++ [("city", to_string (field "city"));
                                ("state_code", to_string (field "state"));
                                ("radius", radius_param (field "radius"))] |}
  else if truthy (field "zip") then
    Some {| endpoint := baseUrl ++ "/properties/zip";
            query := paging ++ [("zip_code", to_string (field "zip"));
                                ("radius", radius_param (field "radius"))] |}
  else None.

(** The delay before a retry after a 429, in milliseconds. *)
Definition retry_delay (response : Response) (attempt : Z) : M number :=
  let retryAfter :=
    or_else (headers response "retry-after")
      (headers response "Retry-After") in
  if truthy retryAfter then
    let text := to_string retryAfter in
    match parseInt text with
    | Some seconds => ret (mul (of_Z seconds) (of_Z 1000))
    | None =>
        fun w =>
          let untilDate :=
            div (sub (Date_getTime text) (of_Z (now w))) (of_Z 1000) in
          (Return (mul (max (of_Z 0) (ceil untilDate)) (of_Z 1000)), w)
    end
  else
    let* jitter := random in
    ret (add
           (min (of_Z 8000)
              (mul (of_int (initialBackoffMs this)) (pow2 attempt)))
           (mul jitter (of_Z 200))).

(** [attempt < this.maxRetries] and [attempt === this.maxRetries]. *)
Definition retries_left (attempt : Z) : bool :=
  match maxRetries this with
  | Some m => (attempt <? m)%Z
  | None => false
  end.

Definition is_last (attempt : Z) : bool :=
  match maxRetries this with
  | Some m => (attempt =? m)%Z
  | None => false
  end.

(** The body of the [try] block of one attempt: the data to return,
    or [None] on [continue]. *)
Definition try_attempt (req : Request) (attempt : Z) : M (option value) :=
  let* response := fetch req in
  if (status response =? 429)%Z then
    let* waitTime := retry_delay response attempt in
    if retries_left attempt then
      sleep waitTime ;; ret None
    else throw (TooManyRequests (maxRetries this))
  else if negb (ok response) then
    throw (UpstreamStatus (status response))
  else
    match json response with
    | Some data => ret (Some data)
    | None => throw BodySyntaxError
    end.

(** The [for] loop of [fetchPage] with [remaining] iterations to go;
    [attempt] counts up to [this.maxRetries]. *)
Fixpoint attempts (req : Request) (page : Z) (remaining : nat)
    (attempt : Z) (lastError : option error) : M value :=
  match remaining with
  | O =>
      throw (match lastError with
             | Some e => e
             | None => FetchExhausted page
             end)
  | S rest =>
      acquire ;;
      try_catch (try_attempt req attempt)
        (fun result =>
           match result with
           | Some data => ret data
           | None => attempts req page rest (attempt + 1) lastError
           end)
        (fun e =>
           if is_last attempt then throw e
           else
             sleep (mul (of_int (initialBackoffMs this)) (pow2 attempt)) ;;
             attempts req page rest (attempt + 1) (Some e))
  end.

(** The number of iterations of [for (attempt = 0; attempt <=
    this.maxRetries; attempt++)]. *)
Definition iterations : nat :=
  match maxRetries this with
  | Some m => Z.to_nat (m + 1)
  | None => 0
  end.

(** [fetchPage(params, page)]; [Null] when no request is made. *)
Definition fetchPage (params : object) (page : Z) : M value :=
  match request_of params page with
  | Some req => attempts req page iterations 0 None
  | None => ret Null
  end.

(** *** The cache table *)

(** [realtorRawCache.findUnique({ where: { hash } })] *)
Definition findUnique (hash : string) : M (option CacheRow) :=
  fun w =>
    if cache_rejects w FindUnique
    then (Throw (CacheFailure FindUnique), w)
    else (Return (rows w !! hash), record (CacheRead hash) w).

(** [realtorRawCache.delete({ where: { hash } })]; it rejects when
    there is no such row. *)
Definition delete_row (hash : string) : M unit :=
  fun w =>
    if cache_rejects w Delete then (Throw (CacheFailure Delete), w)
    else
      match rows w !! hash with
      | Some _ =>
          (Return tt,
           record (CacheDeleted hash) (set_rows (delete hash (rows w)) w))
      | None => (Throw (CacheFailure Delete), w)
      end.

(** [realtorRawCache.upsert(...)]: the row is written with a fresh
    timestamp. *)
Definition upsert (hash payload : string) : M unit :=
  fun w =>
    if cache_rejects w Upsert then (Throw (CacheFailure Upsert), w)
    else
      (Return tt,
       record (CacheWritten hash payload)
         (set_rows
            (<[hash := {| payload := payload; createdAt := now w |}]>
               (rows w))
            w)).

(** *** Pagination *)

Definition position_value (p : number * number) : value :=
  Arr [Num (fst p); Num (snd p)].

Definition feature_value (f : GeoJSONFeature) : value :=
  Obj [("type", Str (feature_type f));
       ("geometry",
        Obj [("type", Str (geometry_type (geometry f)));
             ("coordinates",
              Arr (map (fun ring => Arr (map position_value ring))
                     (coordinates (geometry f))))]);
       ("properties", Obj (properties f))].

(** [response.properties || response.listings || response.results
    || []] *)
Definition listings_of (response : value) : value :=
  or_else (get_opt response "properties")
    (or_else (get_opt response "listings")
       (or_else (get_opt response "results") (Arr []))).

(** [listings.length === 0] *)
Definition length_is_zero (listings : value) : bool :=
  match listings with
  | Arr [] => true
  | Obj o =>
      match lookup_field "length" o with
      | Num n => strict_eqb n (of_Z 0)
      | _ => false
      end
  | _ => false
  end.

Definition totalPages_of (response : value) : value :=
  let explicit :=
    or_else (get_opt response "total_pages")
      (get_opt response "totalPages") in
  if truthy explicit then explicit
  else if truthy (get_opt response "total") then
    Num (ceil (div (to_number (get_opt response "total")) (of_Z 40)))
  else Num (of_Z 1).

(** [listings.map(...).filter(...)]: a listing whose transformation
    throws is left out. *)
Fixpoint transform_all (listings : list value) : M (list GeoJSONFeature) :=
  match listings with
  | listing :: rest =>
      let* feature :=
        (if (negb (is_nullish listing) && draws_random listing)%bool
         then let* rnd := random in ret (transformListing rnd listing)
         else ret (transformListing (of_Z 0) listing)) in
      let* others := transform_all rest in
      ret (match feature with
           | Some f => f :: others
           | None => others
           end)
  | [] => ret []
  end.

(** The [do ... while] loop of [search], for at most [fuel] pages. *)
Fixpoint pages (params : object) (fuel : nat) (currentPage : Z)
    (allFeatures : list GeoJSONFeature) : M (list GeoJSONFeature) :=
  match fuel with
  | O => fun w => (OutOfFuel, w)
  | S fuel' =>
      let* response := fetchPage params currentPage in
      if negb (truthy response) then ret allFeatures
      else
        let listings := listings_of response in
        if length_is_zero listings then ret allFeatures
        else
          let totalPages := to_number (totalPages_of response) in
          match listings with
          | Arr items =>
              let* transformed := transform_all items in
              let collected := (allFeatures ++ transformed)%list in
              if geb (of_Z currentPage) totalPages then ret collected
              else if leb (of_Z (currentPage + 1)) totalPages
              then pages params fuel' (currentPage + 1) collected
              else ret collected
          | _ => throw TypeError
          end
  end.

(** *** search *)

(** Steps 2 and 3: fetch every page, persist a non-empty result. *)
Definition fetch_and_store (params : object) (hash : string) (fuel : nat)
  : M (list GeoJSONFeature) :=
  try_catch
    (let* allFeatures := pages params fuel 1 [] in
     (if (0 <? length allFeatures)%nat
      then upsert hash
             (JSON_stringify (Arr (map feature_value allFeatures)))
      else ret tt) ;;
     ret allFeatures)
    ret
    (fun e => throw e).

(** [ageInHours < this.ttlHours] for a row read at time [t]. *)
Definition ageInHours (t : Z) (row : CacheRow) : number :=
  div (of_Z (t - createdAt row)) (of_Z (1000 * 60 * 60)).

Definition fresh (t : Z) (row : CacheRow) : bool :=
  ltb (ageInHours t row) (of_int (ttlHours this)).

Definition search (params : object) (fuel : nat)
  : M (list GeoJSONFeature) :=
  if negb (SearchParamsSchema params) then throw InvalidSearchParameters
  else
    let hash := computeHash params in
    let* cached := findUnique hash in
    match cached with
    | Some row =>
        fun w =>
          if fresh (now w) row then
            match JSON_parse_features (payload row) with
            | Some features => (Return features, w)
            | None => (Throw PayloadSyntaxError, w)
            end
          else (delete_row hash ;; fetch_and_store params hash fuel) w
    | None => fetch_and_store params hash fuel
    end.

End Provider.

End Realtor.

(** ** Callers of the limiter, one at a time *)

Module Callers.

Import JS RateLimiter.


End Callers.

(** ** What a computation leaves in the world *)

Module Trace.

Import Realtor.

Definition is_token (e : effect) : bool :=
  match e with
  | TokenTaken => true
  | _ => false
  end.

(** The number of tokens taken from the limiter so far. *)
Definition token_count (w : World) : nat :=
  length (List.filter is_token (trace w)).

(** [w'] is [w] after the effects [new], most recent first, with the
    collaborators, the cache and the random numbers drawn as they
    were. *)
Definition extends (new : list effect) (w w' : World) : Prop :=
  trace w' = (new ++ trace w)%list
  /\ upstream w' = upstream w
  /\ cache_rejects w' = cache_rejects w
  /\ rows w' = rows w
  /\ entropy w' = entropy w
  /\ drawn w' = drawn w.

End Trace.

Module Cache.

Import Realtor.

(** A computation that leaves the cache table as it is. *)
Definition keeps_cache {A} (c : M A) : Prop :=
  forall w, rows (snd (c w)) = rows w.

(** The upstream answers the request sent after [k] others from [w]
    on, which asks for page [k + 1] of [params], with a body that holds
    the listings [items] and announces [total] pages. *)
Definition answers_page `{Host} (params : JS.object) (w : World)
    (k total : nat) (items : list JS.value) : Prop :=
  exists req r body,
    request_of params (Z.of_nat k + 1) = Some req
    /\ upstream w (fetch_count w + k)%nat req = Resolved r
    /\ ok r = true
    /\ json r = Some body
    /\ listings_of body = JS.Arr items
    /\ items <> []
    /\ to_number (totalPages_of body) = JS.of_Z (Z.of_nat total).

(** A listing that [transformListing] turns into a feature, or drops,
    without calling [Math.random()]. *)
Definition has_id (listing : JS.value) : bool :=
  JS.is_nullish listing || negb (draws_random listing).

End Cache.

(** ** The ingestion route ([app/api/ingest/realtor/route.ts]) *)

Module Ingest.

Import JS RateLimiter Realtor.

(** The query string of the request: [searchParams.get(name)] is a
    string, or [null]. *)
Record Query : Type := {
  lat : option string;
  lon : option string;
  radius : option string;
  city : option string;
  state : option string;
  zip : option string
}.

(** A parameter as a condition: [null] and the empty string are
    falsy. *)
Definition given (o : option string) : option string :=
  match o with
  | Some s => if String.eqb s EmptyString then None else Some s
  | None => None
  end.

(** [radius ? parseFloat(radius) : 10] *)
Definition radius_of (radius : option string) : value :=
  match given radius with
  | Some s => Num (parseFloat s)
  | None => Num (of_Z 10)
  end.

Definition tenth : number := Fin (1 # 10).

(** The search parameters the route builds; [None] when the request
    names neither coordinates, nor a city with its state, nor a zip. *)
Definition params_of (q : Query) : option object :=
  match given (lat q), given (lon q) with
  | Some lat, Some lon =>
      Some (set_field "radius" (radius_of (radius q))
              (set_field "bbox"
                 (Arr [Num (sub (parseFloat lon) tenth);
                       Num (sub (parseFloat lat) tenth);
                       Num (add (parseFloat lon) tenth);
                       Num (add (parseFloat lat) tenth)])
                 []))
  | _, _ =>
      match given (city q), given (state q) with
      | Some city, Some state =>
          Some (set_field "radius" (radius_of (radius q))
                  (set_field "state" (Str state)
                     (set_field "city" (Str city) [])))
      | _, _ =>
          match given (zip q) with
          | Some zip =>
              Some (set_field "radius" (radius_of (radius q))
                      (set_field "zip" (Str zip) []))
          | None => None
          end
      end
  end.

(** What the route answers. *)
Inductive reply : Type :=
| MissingParameters                      (* status 400 *)
| FeatureCollection (features : list GeoJSONFeature) (fetchedAt : Z)
| ExternalFailure.                       (* status 502 *)

Definition status_of (r : reply) : Z :=
  match r with
  | MissingParameters => 400
  | FeatureCollection _ _ => 200
  | ExternalFailure => 502
  end.

Section Route.

Context `{Host}.

(** [process.env] *)
Variable env : gmap string string.

(** [new RealtorProvider()] *)
Definition construct : M RealtorProvider :=
  fun w =>
    let '(provider, r) := constructor env (now w) (registry w) in
    (Return provider, set_registry r w).

(** [GET(request)] *)
Definition GET (q : Query) (fuel : nat) : M reply :=
  match params_of q with
  | None => ret MissingParameters
  | Some params =>
      try_catch
        (let* provider := construct in
         search provider params fuel)
        (fun features w => (Return (FeatureCollection features (now w)), w))
        (fun _ => ret ExternalFailure)
  end.

End Route.

End Ingest.

(** ** The bounding box helper ([lib/realtorHelper.ts]) *)

Module RealtorHelper.

Import JS.

Section Helper.

(** [haversineDistance(point1, point2)] in kilometres, the points given
    as latitude and longitude; its trigonometry is the host's. *)
Variable haversineDistance : number * number -> number * number -> number.

(** [bboxToCenterAndRadius([west, south, east, north])]: the latitude
    and the longitude of the centre, and the radius in kilometres. *)
Definition bboxToCenterAndRadius (bbox : number * number * number * number)
  : number * number * number :=
  let '(west, south, east, north) := bbox in
  let centerLat := div (add south north) (of_Z 2) in
  let centerLon := div (add west east) (of_Z 2) in
  let diagonalDistance := haversineDistance (south, west) (north, east) in
  let radiusKm := ceil (div diagonalDistance (of_Z 2)) in
  (centerLat, centerLon, radiusKm).

End Helper.

End RealtorHelper.

(** ** Point in polygon ([lib/geo-utils.ts]) *)

Module GeoUtils.

Import JS.

(** [yi > y !== yj > y && x < ((xj - xi) * (y - yi)) / (yj - yi) + xi]
    for the vertex [vi] and its predecessor [vj]. *)
Definition intersect (x y : number) (vi vj : number * number) : bool :=
  let '(xi, yi) := vi in
  let '(xj, yj) := vj in
  negb (Bool.eqb (gtb yi y) (gtb yj y))
  && ltb x (add (div (mul (sub xj xi) (sub y yi)) (sub yj yi)) xi).

(** The [for] loop over the vertices still to visit; [vj] is the vertex
    visited before. *)
Fixpoint crossings (x y : number) (polygon : list (number * number))
    (vj : number * number) (inside : bool) : bool :=
  match polygon with
  | vi :: rest =>
      crossings x y rest vi
        (if intersect x y vi vj then negb inside else inside)
  | [] => inside
  end.

(** [isPointInPolygon(point, polygon)]: the loop starts with the last
    vertex as predecessor. *)
Definition isPointInPolygon (point : number * number)
    (polygon : list (number * number)) : bool :=
  let '(x, y) := point in
  match last polygon with
  | Some vj => crossings x y polygon vj false
  | None => false
  end.

End GeoUtils.

(** ** The mapper of provider results ([lib/services/propertyMapper.ts]) *)

Module PropertyMapper.

Import JS Realtor.

Record Property : Type := {
  id : string;
  externalId : option string;        (* [None] is [null] *)
  source : string;
  latitude : number;
  longitude : number;
  price : number;
  address : string;
  city : string;
  county : option string;
  state : string;
  zip : string;
  propertyType : string;
  lotSize : option number;
  lastFetchedAt : Z;                 (* the time value of the date *)
  createdAt : Z
}.

(** [.nullable()] *)
Definition z_nullable (inner : value -> bool) (v : value) : bool :=
  match v with
  | Null => true
  | _ => inner v
  end.

(** The string a validated string field holds; the empty string when it
    holds none. *)
Definition string_of (v : value) : string :=
  match v with
  | Str s => s
  | _ => EmptyString
  end.

(** [v || null] for a validated string field. *)
Definition string_or_null (v : value) : option string :=
  match v with
  | Str s => if String.eqb s EmptyString then None else Some s
  | _ => None
  end.

Definition number_of (v : value) : number :=
  match v with
  | Num n => n
  | _ => NaN
  end.

(** [v || null] for a validated number field. *)
Definition number_or_null (v : value) : option number :=
  match v with
  | Num n => if truthy_number n then Some n else None
  | _ => None
  end.

Section Mapper.

(** The time value of [new Date(v)]; [None] when the date is invalid. *)
Variable Date_of : value -> option Z.

(** [Date.now()] *)
Variable now : Z.

(** [z.coerce.date().default(() => new Date())] *)
Definition z_date (v : value) : option Z :=
  match v with
  | Undefined => Some now
  | _ => Date_of v
  end.

(** [PropertySchema.parse(externalData)] followed by the mapping;
    [None] is the [null] returned when the parse throws. *)
Definition validateAndMap (externalData : value) : option Property :=
  match externalData with
  | Obj o =>
      let field k := lookup_field k o in
      if z_optional z_string (field "id")
         && z_optional (z_nullable z_string) (field "externalId")
         && z_optional z_string (field "source")
         && z_number (field "latitude")
         && z_number (field "longitude")
         && z_int (field "price")
         && z_string (field "address")
         && z_string (field "city")
         && z_optional (z_nullable z_string) (field "county")
         && z_string (field "state")
         && z_string (field "zip")
         && z_string (field "propertyType")
         && z_optional (z_nullable z_number) (field "lotSize")
      then
        match z_date (field "lastFetchedAt"), z_date (field "createdAt") with
        | Some fetched, Some created =>
            Some {| id := string_of (field "id");
                    externalId := string_or_null (field "externalId");
                    source := match field "source" with
                              | Undefined => "local"
                              | v => string_of v
                              end;
                    latitude := number_of (field "latitude");
                    longitude := number_of (field "longitude");
                    price := number_of (field "price");
                    address := string_of (field "address");
                    city := string_of (field "city");
                    county := string_or_null (field "county");
                    state := string_of (field "state");
                    zip := string_of (field "zip");
                    propertyType := string_of (field "propertyType");
                    lotSize := number_or_null (field "lotSize");
                    lastFetchedAt := fetched;
                    createdAt := created |}
        | _, _ => None
        end
      else None
  | _ => None
  end.

(** [toInternalArray(externalDataArray)] *)
Fixpoint toInternalArray (externalDataArray : list value) : list Property :=
  match externalDataArray with
  | data :: rest =>
      match validateAndMap data with
      | Some p => p :: toInternalArray rest
      | None => toInternalArray rest
      end
  | [] => []
  end.

End Mapper.

End PropertyMapper.

(** ** A sample host and a sample world, to run the code on *)

Module Sample.

Import JS RateLimiter Realtor.

Definition quote : string := String (ascii_of_nat 34) EmptyString.

Definition quoted (s : string) : string := (quote ++ s ++ quote)%string.

Definition print_Z (z : Z) : string :=
  NilEmpty.string_of_int (Z.to_int z).

(** Integers print as numerals, other finite numbers as a fraction. *)
Definition print_number (n : number) : string :=
  match n with
  | NaN => "NaN"
  | PInf => "Infinity"
  | NInf => "-Infinity"
  | Fin q =>
      if (Z.pos (Qden q) =? 1)%Z then print_Z (Qnum q)
      else (print_Z (Qnum q) ++ "/" ++ print_Z (Z.pos (Qden q)))%string
  end.

Fixpoint print (v : value) : string :=
  match v with
  | Undefined => "undefined"
  | Null => "null"
  | Bool b => bool_to_string b
  | Num n => print_number n
  | Str s => quoted s
  | Arr items => ("[" ++ join "," (map print items) ++ "]")%string
  | Obj fields =>
      ("{" ++ join ","
                (map (fun kv =>
                        (quoted (fst kv) ++ ":" ++ print (snd kv))%string)
                   fields)
           ++ "}")%string
  end.

Definition host : Host := {|
  sha256_hex := fun s => s;
  JSON_stringify := print;
  JSON_parse_features := fun _ => Some [];
  Number_toString := print_number;
  StringToNumber := parseFloat;
  Date_getTime := fun _ => NaN;
  random_id := fun _ => "k3j9x0q2a";
  bboxToCenterAndRadius := fun _ => (of_Z 36, of_Z (-93), of_Z 10)
|}.

(** A response without headers. *)
Definition respond (code : Z) (body : option value) : fetch_result :=
  Resolved {| status := code; headers := fun _ => Null; json := body |}.

Definition page_of (ids : list string) (total_pages : Z) : value :=
  Obj [("listings",
        Arr (map (fun id => Obj [("listing_id", Str id)]) ids));
       ("total_pages", Num (of_Z total_pages))].

(** The provider and the world of a fresh process with the environment
    [env], an empty cache and the given upstream. *)
Definition provider (env : gmap string string) : RealtorProvider :=
  fst (constructor env 0 (providerRateLimiter env)).

Definition world (env : gmap string string)
    (up : nat -> Request -> fetch_result) : World :=
  {| now := 0;
     registry := snd (constructor env 0 (providerRateLimiter env));
     rows := ∅;
     cache_rejects := fun _ => false;
     upstream := up;
     entropy := fun _ => Fin (1 # 2);
     drawn := 0;
     trace := [] |}.

Definition with_cache (m : gmap string CacheRow)
    (rejects : cache_op -> bool) (t : Z) (w : World) : World :=
  {| now := t; registry := registry w; rows := m;
     cache_rejects := rejects; upstream := upstream w;
     entropy := entropy w; drawn := drawn w; trace := trace w |}.

Definition zip_query : object := [("zip", Str "37201")].

Definition listing_page : value := page_of ["p1"] 1.

(** An upstream that always answers with the page. *)
Definition serving (n : nat) (req : Request) : fetch_result :=
  respond 200 (Some listing_page).

(** An upstream that answers 429 three times, then with the page. *)
Definition throttled (n : nat) (req : Request) : fetch_result :=
  match n with
  | 0%nat | 1%nat | 2%nat => respond 429 None
  | _ => respond 200 (Some listing_page)
  end.

(** An upstream that answers 500 once, then with the page. *)
Definition failing_once (n : nat) (req : Request) : fetch_result :=
  match n with
  | 0%nat => respond 500 None
  | _ => respond 200 (Some listing_page)
  end.

(** A cache holding one row for [zip_query], written at time 0. *)
Definition cached : gmap string CacheRow :=
  {[ @computeHash host zip_query := {| payload := "[]"; createdAt := 0 |} ]}.

Definition healthy (op : cache_op) : bool := false.

Definition broken (op : cache_op) : bool := true.

Definition store_broken (op : cache_op) : bool :=
  match op with
  | Upsert => true
  | _ => false
  end.

Definition hour : Z := 3600000.

(** An upstream that cannot be reached. *)
Definition unreachable (n : nat) (req : Request) : fetch_result :=
  Rejected "fetch failed".


(** The same polygon with the keys of the geometry in two orders. *)
Definition polygon_query (type_first : bool) : object :=
  let ring := Arr [] in
  [("polygon",
    Obj (if type_first
         then [("type", Str "Polygon"); ("coordinates", ring)]
         else [("coordinates", ring); ("type", Str "Polygon")]))].

End Sample.

(** ** Further upstreams, hosts and records to run the code on *)

Module Cases.

Import JS RateLimiter Realtor Sample.

(** An upstream that answers 429 to every request. *)
Definition throttling (n : nat) (req : Request) : fetch_result :=
  respond 429 None.






(** An upstream that serves two pages: two listings, then one. *)
Definition two_pages (n : nat) (req : Request) : fetch_result :=
  match n with
  | 0%nat => respond 200 (Some (page_of ["p1"; "p2"] 2))
  | _ => respond 200 (Some (page_of ["p3"] 2))
  end.

Definition two_pages_items (k : nat) : list value :=
  match k with
  | 0%nat => [Obj [("listing_id", Str "p1")]; Obj [("listing_id", Str "p2")]]
  | _ => [Obj [("listing_id", Str "p3")]]
  end.

(** An environment in which the number of retries does not parse. *)
Definition no_retries : gmap string string :=
  {[ "REALTOR_MAX_RETRIES" := "none" ]}.

(** A record as another provider could hand it to the mapper. *)
Definition parcel : value :=
  Obj [("externalId", Str EmptyString);
       ("latitude", Num (Fin (73 # 2)));
       ("longitude", Num (Fin (-466 # 5)));
       ("price", Num (of_Z 250000));
       ("address", Str "1 Main St"); ("city", Str "Branson");
       ("state", Str "MO"); ("zip", Str "65616");
       ("propertyType", Str "land");
       ("lotSize", Num (of_Z 0))].

End Cases.

(** * Properties *)

Import RateLimiter Realtor.

(** ** The order on keys *)

Section KeyOrder.

Import JS Realtor.

Lemma ascii_compare_trans (a b c : ascii) (o : comparison) :
  Ascii.compare a b = o -> Ascii.compare b c = o -> Ascii.compare a c = o.
Proof.
  unfold Ascii.compare. destruct o; intros Hab Hbc.
  - apply N.compare_eq_iff in Hab, Hbc. apply N.compare_eq_iff. congruence.
  - rewrite N.compare_lt_iff in *. lia.
  - rewrite N.compare_gt_iff in *. lia.
Qed.

Lemma string_compare_lt_trans (s1 s2 s3 : string) :
  String.compare s1 s2 = Lt -> String.compare s2 s3 = Lt ->
  String.compare s1 s3 = Lt.
Proof.
  revert s2 s3.
  induction s1 as [|a s1 IH]; intros [|b s2] [|c s3]; simpl;
    try congruence.
  destruct (Ascii.compare a b) eqn:Hab; try discriminate;
    destruct (Ascii.compare b c) eqn:Hbc; try discriminate; intros H1 H2.
  - apply Ascii.compare_eq_iff in Hab, Hbc. subst.
    assert (Ascii.compare c c = Eq) as ->
        by (unfold Ascii.compare; apply N.compare_refl).
    eauto.
  - apply Ascii.compare_eq_iff in Hab. subst. now rewrite Hbc.
  - apply Ascii.compare_eq_iff in Hbc. subst. now rewrite Hab.
  - now rewrite (ascii_compare_trans a b c Lt).
Qed.

Lemma string_compare_refl (s : string) : String.compare s s = Eq.
Proof.
  induction s as [|a s IH]; simpl; [reflexivity|].
  unfold Ascii.compare. now rewrite N.compare_refl.
Qed.

Lemma key_le_spec (a b : string) :
  key_le a b <-> a = b \/ String.compare a b = Lt.
Proof.
  unfold key_le, String.leb. split.
  - destruct (String.compare a b) eqn:E; simpl; intros Hle.
    + left. now apply String.compare_eq_iff.
    + now right.
    + contradiction.
  - intros [->|E].
    + now rewrite string_compare_refl.
    + now rewrite E.
Qed.

#[local] Instance key_le_trans : Transitive key_le.
Proof.
  intros a b c Hab Hbc. apply key_le_spec in Hab, Hbc. apply key_le_spec.
  destruct Hab as [->|Hab]; [assumption|].
  destruct Hbc as [->|Hbc]; [now right|].
  right. eapply string_compare_lt_trans; eassumption.
Qed.

#[local] Instance key_le_antisym : AntiSymm (=) key_le.
Proof.
  intros a b Hab Hba. unfold key_le in *.
  apply String.leb_antisym; now apply Is_true_true.
Qed.

#[local] Instance key_le_total : Total key_le.
Proof.
  intros a b. unfold key_le.
  destruct (String.leb_total a b) as [E|E]; rewrite E; simpl; auto.
Qed.

(** Sorting forgets the order in which the keys were given. *)
Lemma sort_keys_permutation (ks1 ks2 : list string) :
  ks1 ≡ₚ ks2 -> sort_keys ks1 = sort_keys ks2.
Proof.
  intros Hperm. unfold sort_keys.
  apply (Sorted_unique key_le).
  - apply Sorted_merge_sort; apply _.
  - apply Sorted_merge_sort; apply _.
  - now rewrite !merge_sort_Permutation.
Qed.

(** Reading a field does not depend on where the field sits. *)
Lemma lookup_field_permutation (k : string) (o1 o2 : object) :
  NoDup (Object_keys o1) -> o1 ≡ₚ o2 ->
  lookup_field k o1 = lookup_field k o2.
Proof.
  intros Hnd Hperm. revert Hnd.
  induction Hperm as [|[k' v] o1 o2 Hperm IH
                      |[k1 v1] [k2 v2] o|o1 o2 o3 H12 IH12 H23 IH23];
    intros Hnd; simpl.
  - reflexivity.
  - simpl in Hnd. apply NoDup_cons in Hnd as [_ Hnd].
    destruct (String.eqb k k'); auto.
  - simpl in Hnd. apply NoDup_cons in Hnd as [Hnotin _].
    apply not_elem_of_cons in Hnotin as [Hne _].
    destruct (String.eqb_spec k k1), (String.eqb_spec k k2);
      congruence.
  - rewrite IH12 by assumption. apply IH23.
    unfold Object_keys in *. now rewrite <- H12.
Qed.

Lemma build_ext (f g : string -> value) (ks : list string) (acc : object) :
  (forall k, f k = g k) ->
  fold_left (fun acc key => set_field key (f key) acc) ks acc
  = fold_left (fun acc key => set_field key (g key) acc) ks acc.
Proof.
  intros Hfg. revert acc.
  induction ks as [|k ks IH]; intros acc; simpl; [reflexivity|].
  now rewrite Hfg, IH.
Qed.

Lemma sortedParams_permutation (p1 p2 : object) :
  NoDup (Object_keys p1) -> p1 ≡ₚ p2 -> sortedParams p1 = sortedParams p2.
Proof.
  intros Hnd Hperm. unfold sortedParams.
  rewrite (sort_keys_permutation (Object_keys p1) (Object_keys p2))
    by (unfold Object_keys; now rewrite Hperm).
  apply build_ext. intros k. now apply lookup_field_permutation.
Qed.

End KeyOrder.

(** ** The query hash *)

(** C5.  Two parameter objects that hold the same key/value pairs, in
    whatever order the keys were inserted, have the same query hash. *)
Theorem computeHash_key_order `{Host} (p1 p2 : JS.object) :
  NoDup (Object_keys p1) ->
  p1 ≡ₚ p2 ->
  computeHash p1 = computeHash p2.
Proof.
  intros Hnd Hperm. unfold computeHash.
  now rewrite (sortedParams_permutation p1 p2).
Qed.

Lemma computeHash_key_order_witness :
  @computeHash Sample.host
    [("zip", JS.Str "37201"); ("radius", JS.Num (JS.of_Z 10))]
  = @computeHash Sample.host
      [("radius", JS.Num (JS.of_Z 10)); ("zip", JS.Str "37201")].
Proof.
  apply computeHash_key_order.
  - apply (bool_decide_unpack _). vm_compute. exact I.
  - apply perm_swap.
Defined.

(** Only the keys of the parameter object itself are sorted: the keys of
    an object nested in it are serialised in the order they have. *)
Lemma computeHash_nested_keys_unsorted :
  @sortedParams (Sample.polygon_query true)
  <> @sortedParams (Sample.polygon_query false)
  /\ @computeHash Sample.host (Sample.polygon_query true)
     <> @computeHash Sample.host (Sample.polygon_query false).
Proof. split; vm_compute; discriminate. Qed.

(** ** Arithmetic of numbers *)

Section Numbers.

Import JS.

Lemma Qltb_lt (a b : Q) : Qltb a b = true <-> (a < b)%Q.
Proof.
  unfold Qltb. rewrite negb_true_iff. split.
  - intros Hle. apply Qnot_le_lt. intros Hba.
    apply Qle_bool_iff in Hba. congruence.
  - intros Hlt. destruct (Qle_bool b a) eqn:E; [|reflexivity].
    apply Qle_bool_iff in E. exfalso. eapply Qlt_not_le; eassumption.
Qed.

Lemma Qle_bool_false (a b : Q) : Qle_bool a b = false <-> (b < a)%Q.
Proof.
  rewrite <- Qltb_lt. unfold Qltb. now rewrite negb_true_iff.
Qed.

Lemma sub_fin (x y : Q) :
  exists z, sub (Fin x) (Fin y) = Fin z /\ (z == x - y)%Q.
Proof.
  eexists. split; [reflexivity|].
  rewrite !Qred_correct. reflexivity.
Qed.


Lemma isNaN_add_fin (a : number) (q : Q) : isNaN (add a (Fin q)) = isNaN a.
Proof. now destruct a. Qed.

Lemma isNaN_sub_fin (a : number) (q : Q) : isNaN (sub a (Fin q)) = isNaN a.
Proof. now destruct a. Qed.

End Numbers.

(** ** The token bucket *)

Section TokenBucket.

Import JS RateLimiter.

Lemma create_within_capacity (c : Q) (rate : number) (now : Z) :
  within_capacity (create (Fin c) rate now).
Proof. exists c, c. repeat split. apply Qle_refl. Qed.

Lemma refill_within_capacity (now : Z) (l : TokenBucketLimiter) :
  within_capacity l -> within_capacity (refill now l).
Proof.
  intros (c & t & Hc & Ht & Hle). unfold refill.
  destruct (mul (of_Z (now - lastRefill l)) (refillRate l)) as [| | |x];
    try (exists c, t; now auto).
  - exists c, c. cbn. rewrite Hc, Ht. repeat split. apply Qle_refl.
  - destruct (gtb (Fin x) (of_Z 0)); [|exists c, t; now auto].
    unfold within_capacity. cbn. rewrite Hc, Ht. cbn.
    destruct (Qle_bool c (Qred (t + x))) eqn:E.
    + exists c, c. repeat split. apply Qle_refl.
    + exists c, (Qred (t + x)). repeat split.
      apply Qle_bool_false in E. now apply Qlt_le_weak.
Qed.

Lemma consume_within_capacity (l : TokenBucketLimiter) :
  within_capacity l -> within_capacity (consume l).
Proof.
  intros (c & t & Hc & Ht & Hle).
  unfold consume, set_tokens, within_capacity. cbn [tokens capacity].
  rewrite Hc, Ht. change (of_Z 1) with (Fin (inject_Z 1)).
  destruct (sub_fin t (inject_Z 1)) as (z & -> & Hz).
  exists c, z. repeat split. rewrite Hz.
  apply Qle_trans with t; [|assumption].
  rewrite <- (Qplus_0_r t) at 2. apply Qplus_le_r. discriminate.
Qed.

Lemma step_within_capacity (s s1 : sched) (e : event) :
  within_capacity (bucket s) -> step s e = Some s1 ->
  within_capacity (bucket s1).
Proof.
  intros Hs. unfold step.
  destruct e as [now|now]; destruct (clock s <=? now)%Z; try discriminate.
  - unfold waitForToken_enter.
    pose proof (refill_within_capacity now _ Hs) as Hr.
    destruct (geb _ _); intros [= <-]; simpl;
      auto using consume_within_capacity.
  - destruct (fire now (timers s)); intros [= <-]. simpl.
    unfold waitForToken_resume.
    auto using consume_within_capacity, refill_within_capacity.
Qed.

(** However the callers of one limiter interleave, the bucket never
    holds more tokens than its capacity. *)
Lemma run_within_capacity (es : list event) (s s1 : sched) :
  within_capacity (bucket s) -> run s es = Some s1 ->
  within_capacity (bucket s1).
Proof.
  revert s. induction es as [|e es IH]; intros s Hs; simpl.
  - now intros [= <-].
  - destruct (step s e) as [s2|] eqn:Hstep; [|discriminate].
    apply IH. eapply step_within_capacity; eassumption.
Qed.







Lemma env_or_insert_ne (env : gmap string string) (k v name fallback : string) :
  k <> name -> env_or (<[k := v]> env) name fallback = env_or env name fallback.
Proof.
  intros Hne. unfold env_or. now rewrite lookup_insert_ne.
Qed.

End TokenBucket.

(** C3.  The code at its failing input: the limiter of the default
    configuration (capacity 30, 0.5 tokens per millisecond) starts within
    its bounds; 32 callers enter [waitForToken] in the same millisecond,
    30 of them take a token and 2 are suspended for 2 ms; when both
    timers fire the first caller takes the one token the refill has
    produced and the second drives the count to -1 (to -1/2 if it fires
    one millisecond later), while both calls complete. *)
Theorem waitForToken_interleaved_overdraws :
  let l0 := create (JS.of_Z 30) (JS.Fin (1 # 2)) 0 in
  let observe :=
    option_map (fun s => (tokens (bucket s), timers s, completed s)) in
  limiters (getRateLimiter "realtor16" 0 (providerRateLimiter ∅))
    !! "realtor16" = Some l0
  /\ within_capacity l0
  /\ not_overdrawn l0
  /\ observe (run (start l0 0) (replicate 32 (Call 0)))
     = Some (JS.Fin 0, [2; 2], 30%nat)
  /\ observe (run (start l0 0) (replicate 32 (Call 0) ++ [Wake 2; Wake 2]))
     = Some (JS.Fin (-1), [], 32%nat)
  /\ observe (run (start l0 0) (replicate 32 (Call 0) ++ [Wake 2; Wake 3]))
     = Some (JS.Fin (-1 # 2), [], 32%nat).
Proof.
  cbv zeta. split; [now vm_compute|].
  split; [apply create_within_capacity|].
  split; [exists 30%Q; split; [reflexivity|discriminate]|].
  repeat split; now vm_compute.
Qed.

(** C2.  The code at its failing input: the value of
    REALTOR_MAX_CALLS_PER_MIN has no effect on the provider or on the
    limiter it obtains; with the variable set to 2 the limiter still has
    capacity 30 and refills 0.5 tokens per millisecond, and 34 calls to
    [waitForToken] made within 8 milliseconds all return at once. *)
Theorem maxCallsPerMin_not_used :
  (forall (env : gmap string string) (v : string) (t0 : Z),
      constructor (<["REALTOR_MAX_CALLS_PER_MIN" := v]> env) t0
        (providerRateLimiter (<["REALTOR_MAX_CALLS_PER_MIN" := v]> env))
      = constructor env t0 (providerRateLimiter env))
  /\ (let env : gmap string string :=
        {["REALTOR_MAX_CALLS_PER_MIN" := "2"]} in
      let l := limiter (Sample.world env Sample.unreachable) in
      l = create (JS.of_Z 30) (JS.Fin (1 # 2)) 0
      /\ option_map (fun s => (timers s, completed s))
           (run (start l 0)
              (replicate 30 (Call 0) ++ map Call [2; 4; 6; 8]))
         = Some ([], 34%nat)).
Proof.
  split.
  - intros env v t0. unfold constructor, providerRateLimiter.
    now rewrite !env_or_insert_ne by discriminate.
  - cbv zeta. repeat split; now vm_compute.
Qed.

(** ** The provider and its world *)

Section Worlds.

Import JS RateLimiter Realtor.

Lemma evolves_refl (w : World) : evolves w w.
Proof. unfold evolves. repeat split; auto. now exists []. Qed.

Lemma evolves_trans (w1 w2 w3 : World) :
  evolves w1 w2 -> evolves w2 w3 -> evolves w1 w3.
Proof.
  intros (U1 & C1 & E1 & n1 & T1) (U2 & C2 & E2 & n2 & T2).
  unfold evolves. repeat split; try congruence.
  exists (n2 ++ n1)%list. rewrite T2, T1. now rewrite app_assoc.
Qed.

Lemma evolves_record (e : effect) (w : World) : evolves w (record e w).
Proof. unfold evolves. repeat split; auto. now exists [e]. Qed.


Lemma steady_ret {A} (a : A) : steady (ret a).
Proof. intros w. apply evolves_refl. Qed.

Lemma steady_throw {A} (e : error) : steady (@throw A e).
Proof. intros w. apply evolves_refl. Qed.

Lemma steady_stop {A} (o : outcome A) : steady (fun w => (o, w)).
Proof. intros w. apply evolves_refl. Qed.

Lemma steady_try_catch {A B} (c : M A) (k : A -> M B) (h : error -> M B) :
  steady c -> (forall a, steady (k a)) -> (forall e, steady (h e)) ->
  steady (try_catch c k h).
Proof.
  intros Hc Hk Hh w. unfold try_catch. specialize (Hc w).
  destruct (c w) as [[a|e|] w1]; cbn [snd] in *; auto.
  - eapply evolves_trans; [exact Hc|apply Hk].
  - eapply evolves_trans; [exact Hc|apply Hh].
Qed.

Lemma steady_bind {A B} (c : M A) (k : A -> M B) :
  steady c -> (forall a, steady (k a)) -> steady (bind c k).
Proof.
  intros Hc Hk w. unfold bind. specialize (Hc w).
  destruct (c w) as [[a|e|] w1]; cbn [snd] in *; auto.
  eapply evolves_trans; [exact Hc|apply Hk].
Qed.

Lemma steady_sleep (ms : number) : steady (sleep ms).
Proof.
  intros w. unfold evolves. cbn. repeat split; auto. now exists [Slept ms].
Qed.

Lemma steady_random : steady random.
Proof. intros w. unfold evolves. cbn. repeat split; auto. now exists []. Qed.

Lemma steady_fetch (req : Request) : steady (fetch req).
Proof.
  intros w. unfold fetch.
  destruct (upstream w _ _); cbn [snd]; apply evolves_record.
Qed.

Lemma steady_acquire : steady acquire.
Proof.
  intros w. unfold acquire. destruct (waitForToken _ _ _) as [l1 t1].
  unfold evolves. cbn. repeat split; auto. now exists [TokenTaken].
Qed.

Lemma steady_findUnique (hash : string) : steady (findUnique hash).
Proof.
  intros w. unfold findUnique.
  destruct (cache_rejects w FindUnique); cbn [snd];
    [apply evolves_refl|apply evolves_record].
Qed.

Lemma steady_delete_row (hash : string) : steady (delete_row hash).
Proof.
  intros w. unfold delete_row.
  destruct (cache_rejects w Delete); cbn [snd]; [apply evolves_refl|].
  destruct (rows w !! hash); cbn [snd]; [|apply evolves_refl].
  unfold evolves. cbn. repeat split; auto. now exists [CacheDeleted hash].
Qed.

Lemma steady_upsert (hash payload : string) : steady (upsert hash payload).
Proof.
  intros w. unfold upsert.
  destruct (cache_rejects w Upsert); cbn [snd]; [apply evolves_refl|].
  unfold evolves. cbn. repeat split; auto.
  now exists [CacheWritten hash payload].
Qed.

End Worlds.

(** Closes or splits a goal [steady c] along the structure of [c]. *)
Ltac steady :=
  repeat first
    [ apply steady_ret | apply steady_throw | apply steady_stop
    | apply steady_sleep | apply steady_random | apply steady_fetch
    | apply steady_acquire | apply steady_findUnique
    | apply steady_delete_row | apply steady_upsert
    | assumption
    | match goal with
      | |- Realtor.steady (Realtor.bind _ _) =>
          apply steady_bind; [|intros ?]
      | |- Realtor.steady (Realtor.try_catch _ _ _) =>
          apply steady_try_catch; [|intros ?|intros ?]
      | |- Realtor.steady (if ?b then _ else _) => destruct b
      | |- Realtor.steady (match ?x with _ => _ end) => destruct x
      end ].

Section Provider.

Import JS RateLimiter Realtor.

Context `{Host}.

Variable this : RealtorProvider.

(** *** Every computation of the provider is steady *)

Lemma steady_retry_delay (r : Response) (attempt : Z) :
  steady (retry_delay this r attempt).
Proof. unfold retry_delay. steady. Qed.

Lemma steady_try_attempt (req : Request) (attempt : Z) :
  steady (try_attempt this req attempt).
Proof.
  unfold try_attempt. steady. apply steady_retry_delay.
Qed.

Lemma steady_attempts (req : Request) (page : Z) (remaining : nat)
    (attempt : Z) (last : option error) :
  steady (attempts this req page remaining attempt last).
Proof.
  revert attempt last.
  induction remaining as [|rest IH]; intros attempt last; cbn [attempts].
  - steady.
  - steady; try apply steady_try_attempt; apply IH.
Qed.

Lemma steady_fetchPage (params : object) (page : Z) :
  steady (fetchPage this params page).
Proof. unfold fetchPage. steady. apply steady_attempts. Qed.

Lemma steady_transform_all (listings : list value) :
  steady (transform_all listings).
Proof. induction listings as [|x rest IH]; cbn [transform_all]; steady. Qed.

Lemma steady_pages (params : object) (fuel : nat) (currentPage : Z)
    (allFeatures : list GeoJSONFeature) :
  steady (pages this params fuel currentPage allFeatures).
Proof.
  revert currentPage allFeatures.
  induction fuel as [|fuel IH]; intros currentPage allFeatures;
    cbn [pages].
  - steady.
  - apply steady_bind; [apply steady_fetchPage|intros response].
    destruct (negb (truthy response)); [steady|].
    destruct (length_is_zero _); [steady|].
    destruct (listings_of response); steady;
      try apply steady_transform_all; apply IH.
Qed.

Lemma steady_fetch_and_store (params : object) (hash : string) (fuel : nat) :
  steady (fetch_and_store this params hash fuel).
Proof. unfold fetch_and_store. steady. apply steady_pages. Qed.

Lemma steady_search (params : object) (fuel : nat) :
  steady (search this params fuel).
Proof.
  unfold search. destruct (negb _); [steady|].
  apply steady_bind; [steady|intros [row|]].
  - intros w. destruct (fresh this (now w) row).
    + destruct (JSON_parse_features _); apply evolves_refl.
    + apply (steady_bind (delete_row _)); [steady|intros _].
      apply steady_fetch_and_store.
  - apply steady_fetch_and_store.
Qed.

(** *** One iteration of the retry loop *)

Lemma after_fetches_refl (w : World) : after_fetches 0 w w.
Proof. unfold after_fetches. repeat split; auto. Qed.

Lemma after_fetches_trans (n m : nat) (w1 w2 w3 : World) :
  after_fetches n w1 w2 -> after_fetches m w2 w3 ->
  after_fetches (n + m) w1 w3.
Proof.
  intros (U1 & F1 & C1 & R1) (U2 & F2 & C2 & R2).
  unfold after_fetches. repeat split; try congruence. lia.
Qed.

Lemma acquire_run (w : World) :
  exists w1, acquire w = (Return tt, w1) /\ after_fetches 0 w w1.
Proof.
  unfold acquire. destruct (waitForToken _ _ _) as [l1 t1].
  eexists. split; [reflexivity|].
  unfold after_fetches, fetch_count. cbn. repeat split; auto.
Qed.

Lemma sleep_run (ms : number) (w : World) :
  exists w1, sleep ms w = (Return tt, w1) /\ after_fetches 0 w w1.
Proof.
  eexists. split; [reflexivity|].
  unfold after_fetches, fetch_count. cbn. repeat split; auto.
Qed.

Lemma fetch_run (req : Request) (w : World) (r : Response) :
  upstream w (fetch_count w) req = Resolved r ->
  exists w1, fetch req w = (Return r, w1) /\ after_fetches 1 w w1.
Proof.
  intros Hup. unfold fetch. rewrite Hup.
  eexists. split; [reflexivity|].
  unfold after_fetches, fetch_count. cbn. repeat split; auto.
  now rewrite Nat.add_1_r.
Qed.

Lemma retry_delay_run (r : Response) (attempt : Z) (w : World) :
  exists ms w1,
    retry_delay this r attempt w = (Return ms, w1) /\ after_fetches 0 w w1.
Proof.
  unfold retry_delay. destruct (truthy _).
  - destruct (parseInt _); do 2 eexists; (split; [reflexivity|]);
      apply after_fetches_refl.
  - do 2 eexists. split; [reflexivity|].
    unfold after_fetches, fetch_count. cbn. repeat split; auto.
Qed.

Lemma attempts_429 (req : Request) (page : Z) (rest : nat) (attempt : Z)
    (last : option error) (w : World) (r : Response) :
  upstream w (fetch_count w) req = Resolved r ->
  status r = 429 ->
  retries_left this attempt = true ->
  exists w1,
    attempts this req page (S rest) attempt last w
    = attempts this req page rest (attempt + 1) last w1
    /\ after_fetches 1 w w1.
Proof.
  intros Hup Hst Hleft. cbn [attempts].
  destruct (acquire_run w) as (w1 & Hacq & F1).
  destruct (fetch_run req w1 r) as (w2 & Hfetch & F2).
  { destruct F1 as (-> & -> & _). now rewrite Nat.add_0_r. }
  destruct (retry_delay_run r attempt w2) as (ms & w3 & Hdelay & F3).
  destruct (sleep_run ms w3) as (w4 & Hsleep & F4).
  exists w4. split.
  - unfold bind at 1. rewrite Hacq.
    unfold try_catch, try_attempt. unfold bind at 1. rewrite Hfetch.
    rewrite Hst. cbn [Z.eqb Pos.eqb]. unfold bind at 1. rewrite Hdelay.
    rewrite Hleft. unfold bind at 1. rewrite Hsleep. reflexivity.
  - pose proof (after_fetches_trans _ _ _ _ _ F1
                  (after_fetches_trans _ _ _ _ _ F2
                     (after_fetches_trans _ _ _ _ _ F3 F4))) as F.
    exact F.
Qed.

Lemma ok_not_429 (r : Response) : ok r = true -> (status r =? 429) = false.
Proof. unfold ok. lia. Qed.

Lemma attempts_success (req : Request) (page : Z) (rest : nat)
    (attempt : Z) (last : option error) (w : World) (r : Response)
    (data : value) :
  upstream w (fetch_count w) req = Resolved r ->
  ok r = true ->
  json r = Some data ->
  exists w1,
    attempts this req page (S rest) attempt last w = (Return data, w1)
    /\ after_fetches 1 w w1.
Proof.
  intros Hup Hok Hjson. cbn [attempts].
  destruct (acquire_run w) as (w1 & Hacq & F1).
  destruct (fetch_run req w1 r) as (w2 & Hfetch & F2).
  { destruct F1 as (-> & -> & _). now rewrite Nat.add_0_r. }
  exists w2. split.
  - unfold bind at 1. rewrite Hacq.
    unfold try_catch, try_attempt. unfold bind at 1. rewrite Hfetch.
    rewrite (ok_not_429 r Hok), Hok, Hjson. reflexivity.
  - exact (after_fetches_trans _ _ _ _ _ F1 F2).
Qed.

Lemma attempts_error_status (req : Request) (page : Z) (rest : nat)
    (attempt : Z) (last : option error) (w : World) (r : Response) :
  upstream w (fetch_count w) req = Resolved r ->
  (status r =? 429) = false ->
  ok r = false ->
  is_last this attempt = false ->
  exists w1,
    attempts this req page (S rest) attempt last w
    = attempts this req page rest (attempt + 1)
        (Some (UpstreamStatus (status r))) w1
    /\ after_fetches 1 w w1.
Proof.
  intros Hup Hst Hok Hlast. cbn [attempts].
  destruct (acquire_run w) as (w1 & Hacq & F1).
  destruct (fetch_run req w1 r) as (w2 & Hfetch & F2).
  { destruct F1 as (-> & -> & _). now rewrite Nat.add_0_r. }
  destruct (sleep_run (mul (of_int (initialBackoffMs this)) (pow2 attempt)) w2)
    as (w3 & Hsleep & F3).
  exists w3. split.
  - unfold bind at 1. rewrite Hacq.
    unfold try_catch, try_attempt. unfold bind at 1. rewrite Hfetch.
    rewrite Hst, Hok. cbn [negb throw]. rewrite Hlast.
    unfold bind at 1. rewrite Hsleep. reflexivity.
  - exact (after_fetches_trans _ _ _ _ _ F1
             (after_fetches_trans _ _ _ _ _ F2 F3)).
Qed.

Lemma iterations_at_least (m : Z) (n : nat) :
  maxRetries this = Some m -> (Z.of_nat n <= m)%Z ->
  exists k, iterations this = (S n + k)%nat.
Proof.
  intros Hm Hle. unfold iterations. rewrite Hm.
  exists (Z.to_nat (m - Z.of_nat n)). lia.
Qed.

Lemma retries_left_below (m attempt : Z) :
  maxRetries this = Some m -> (attempt < m)%Z ->
  retries_left this attempt = true /\ is_last this attempt = false.
Proof.
  intros Hm Hlt. unfold retries_left, is_last. rewrite Hm. lia.
Qed.

(** *** Requests sent, and the age of a cache row *)







Lemma fresh_spec (t ttl : Z) (row : CacheRow) :
  ttlHours this = Some ttl ->
  fresh this t row = true <-> t - createdAt row < ttl * 3600000.
Proof.
  intros Httl. unfold fresh, ageInHours. rewrite Httl.
  change (1000 * 60 * 60) with 3600000.
  unfold of_int, of_Z, div.
  change (Qsign (inject_Z 3600000)) with Gt. cbn [ltb].
  rewrite Qltb_lt, Qred_correct.
  assert (0 < inject_Z 3600000)%Q as Hpos by reflexivity.
  split; intros Hlt.
  - destruct (Z_lt_le_dec (t - createdAt row) (ttl * 3600000))
      as [Hz|Hz]; [exact Hz|exfalso].
    apply (Qlt_not_le _ _ Hlt). apply Qle_shift_div_l; [exact Hpos|].
    rewrite <- inject_Z_mult, <- Zle_Qle. exact Hz.
  - apply Qlt_shift_div_r; [exact Hpos|].
    rewrite <- inject_Z_mult, <- Zlt_Qlt. lia.
Qed.

End Provider.

(** ** fetchPage *)

(** C6.  When the upstream answers 429 to the first three requests of a
    page and succeeds on the fourth, and [maxRetries] is at least 3,
    [fetchPage] sends exactly four requests and returns the body of the
    fourth response. *)
Theorem fetchPage_three_429_then_success `{Host} (this : RealtorProvider)
    (params : JS.object) (page : Z) (req : Request) (w : World) (m : Z)
    (r0 r1 r2 r3 : Response) (data : JS.value) :
  request_of params page = Some req ->
  maxRetries this = Some m -> (3 <= m)%Z ->
  upstream w (fetch_count w) req = Resolved r0 -> status r0 = 429 ->
  upstream w (1 + fetch_count w)%nat req = Resolved r1 -> status r1 = 429 ->
  upstream w (2 + fetch_count w)%nat req = Resolved r2 -> status r2 = 429 ->
  upstream w (3 + fetch_count w)%nat req = Resolved r3 ->
  ok r3 = true -> json r3 = Some data ->
  exists w',
    fetchPage this params page w = (Return data, w')
    /\ fetch_count w' = (fetch_count w + 4)%nat.
Proof.
  intros Hreq Hm Hm3 U0 S0 U1 S1 U2 S2 U3 Hok Hjson.
  unfold fetchPage. rewrite Hreq.
  destruct (iterations_at_least this m 3 Hm) as (k & ->); [lia|].
  cbn [Nat.add].
  destruct (retries_left_below this m 0 Hm) as [L0 _]; [lia|].
  destruct (retries_left_below this m 1 Hm) as [L1 _]; [lia|].
  destruct (retries_left_below this m 2 Hm) as [L2 _]; [lia|].
  destruct (attempts_429 this req page (S (S (S k))) 0 None w r0 U0 S0 L0)
    as (w1 & -> & (E1 & F1 & _)).
  destruct (attempts_429 this req page (S (S k)) (0 + 1) None w1 r1)
    as (w2 & -> & (E2 & F2 & _)); auto.
  { rewrite E1, F1, Nat.add_1_r. exact U1. }
  destruct (attempts_429 this req page (S k) (0 + 1 + 1) None w2 r2)
    as (w3 & -> & (E3 & F3 & _)); auto.
  { rewrite E2, F2, E1, F1, !Nat.add_1_r. exact U2. }
  destruct (attempts_success this req page k (0 + 1 + 1 + 1) None w3 r3 data)
    as (w4 & -> & (E4 & F4 & _)); auto.
  { rewrite E3, F3, E2, F2, E1, F1, !Nat.add_1_r. exact U3. }
  exists w4. split; [reflexivity|]. lia.
Qed.

Lemma fetchPage_three_429_then_success_witness :
  exists w',
    @fetchPage Sample.host (Sample.provider ∅) Sample.zip_query 1
      (Sample.world ∅ Sample.throttled)
    = (Return Sample.listing_page, w')
    /\ fetch_count w' = 4%nat.
Proof.
  eapply (@fetchPage_three_429_then_success Sample.host (Sample.provider ∅)
            Sample.zip_query 1 _ (Sample.world ∅ Sample.throttled) 5);
    try reflexivity.
  lia.
Defined.

(** C1.  The code at its failing input: when the first response to a
    page has a status that is neither 2xx nor 429 and at least one retry
    is configured, [fetchPage] does not fail; it sleeps, sends a second
    request, and returns the body of a successful second response. *)
Theorem fetchPage_retries_error_status `{Host} (this : RealtorProvider)
    (params : JS.object) (page : Z) (req : Request) (w : World) (m : Z)
    (r0 r1 : Response) (data : JS.value) :
  request_of params page = Some req ->
  maxRetries this = Some m -> (1 <= m)%Z ->
  upstream w (fetch_count w) req = Resolved r0 ->
  status r0 <> 429 -> ok r0 = false ->
  upstream w (1 + fetch_count w)%nat req = Resolved r1 ->
  ok r1 = true -> json r1 = Some data ->
  exists w',
    fetchPage this params page w = (Return data, w')
    /\ fetch_count w' = (fetch_count w + 2)%nat.
Proof.
  intros Hreq Hm Hm1 U0 S0 Hbad U1 Hok Hjson.
  unfold fetchPage. rewrite Hreq.
  destruct (iterations_at_least this m 1 Hm) as (k & ->); [lia|].
  cbn [Nat.add].
  destruct (retries_left_below this m 0 Hm) as [_ L0]; [lia|].
  destruct (attempts_error_status this req page (S k) 0 None w r0)
    as (w1 & -> & (E1 & F1 & _)); auto.
  { now apply Z.eqb_neq. }
  destruct (attempts_success this req page k (0 + 1)
              (Some (UpstreamStatus (status r0))) w1 r1 data)
    as (w2 & -> & (E2 & F2 & _)); auto.
  { rewrite E1, F1, Nat.add_1_r. exact U1. }
  exists w2. split; [reflexivity|]. lia.
Qed.

Lemma fetchPage_retries_error_status_witness :
  exists w',
    @fetchPage Sample.host (Sample.provider ∅) Sample.zip_query 1
      (Sample.world ∅ Sample.failing_once)
    = (Return Sample.listing_page, w')
    /\ fetch_count w' = 2%nat.
Proof.
  eapply (@fetchPage_retries_error_status Sample.host (Sample.provider ∅)
            Sample.zip_query 1 _ (Sample.world ∅ Sample.failing_once) 5);
    try reflexivity.
  - lia.
  - discriminate.
Defined.

(** ** search and the cache *)

Lemma search_valid `{Host} (this : RealtorProvider) (params : JS.object)
    (fuel : nat) (w : World) :
  SearchParamsSchema params = true ->
  search this params fuel w
  = bind (findUnique (computeHash params))
      (fun cached =>
         match cached with
         | Some row =>
             fun w =>
               if fresh this (now w) row then
                 match JSON_parse_features (payload row) with
                 | Some features => (Return features, w)
                 | None => (Throw PayloadSyntaxError, w)
                 end
               else (delete_row (computeHash params) ;;
                     fetch_and_store this params (computeHash params) fuel) w
         | None => fetch_and_store this params (computeHash params) fuel
         end) w.
Proof. intros Hvalid. unfold search. now rewrite Hvalid. Qed.


(** An expired row is deleted, and the fetch phase runs without it. *)
Lemma search_expired `{Host} (this : RealtorProvider) (params : JS.object)
    (fuel : nat) (w : World) (row : CacheRow) :
  SearchParamsSchema params = true ->
  cache_rejects w FindUnique = false ->
  rows w !! computeHash params = Some row ->
  fresh this (now w) row = false ->
  cache_rejects w Delete = false ->
  search this params fuel w
  = fetch_and_store this params (computeHash params) fuel
      (record (CacheDeleted (computeHash params))
         (set_rows (delete (computeHash params) (rows w))
            (record (CacheRead (computeHash params)) w))).
Proof.
  intros Hvalid Hfind Hrow Hfresh Hdel.
  rewrite (search_valid this params fuel w Hvalid).
  unfold bind at 1, findUnique. rewrite Hfind, Hrow.
  cbn [now record]. rewrite Hfresh.
  unfold bind at 1, delete_row. cbn [cache_rejects rows record].
  now rewrite Hdel, Hrow.
Qed.

Lemma fresh_false (this : RealtorProvider) (t ttl : Z) (row : CacheRow) :
  ttlHours this = Some ttl ->
  ttl * 3600000 <= t - createdAt row ->
  fresh this t row = false.
Proof.
  intros Httl Hage. destruct (fresh this t row) eqn:Hfresh; [|reflexivity].
  apply (fresh_spec this t ttl row Httl) in Hfresh. lia.
Qed.



(** What an expired row holds has no influence on what [search] does. *)
Lemma search_forgets_expired_row `{Host} (this : RealtorProvider)
    (params : JS.object) (fuel : nat) (w : World) (row row' : CacheRow)
    (ttl : Z) :
  SearchParamsSchema params = true ->
  cache_rejects w FindUnique = false ->
  cache_rejects w Delete = false ->
  ttlHours this = Some ttl ->
  rows w !! computeHash params = Some row ->
  ttl * 3600000 <= now w - createdAt row ->
  ttl * 3600000 <= now w - createdAt row' ->
  search this params fuel
    (set_rows (<[computeHash params := row']> (rows w)) w)
  = search this params fuel w.
Proof.
  intros Hvalid Hfind Hdel Httl Hrow Hage Hage'.
  rewrite (search_expired this params fuel w row Hvalid Hfind Hrow
             (fresh_false this (now w) ttl row Httl Hage) Hdel).
  assert (rows (set_rows (<[computeHash params := row']> (rows w)) w)
            !! computeHash params = Some row') as Hrow'
      by (cbn [rows set_rows]; apply lookup_insert_eq).
  rewrite (search_expired this params fuel
             (set_rows (<[computeHash params := row']> (rows w)) w)
             row' Hvalid Hfind Hrow'
             (fresh_false this (now w) ttl row' Httl Hage') Hdel).
  f_equal. unfold record, set_rows. cbn. now rewrite delete_insert_eq.
Qed.

(** A failure of the cache lookup on a query the upstream would have
    answered. *)
Lemma search_rejects_when_lookup_fails :
  let w := Sample.with_cache ∅ Sample.broken 0
             (Sample.world ∅ Sample.serving) in
  let w_ok := Sample.with_cache ∅ Sample.healthy 0
                (Sample.world ∅ Sample.serving) in
  @search Sample.host (Sample.provider ∅) Sample.zip_query 3 w
  = (Throw (CacheFailure FindUnique), w)
  /\ fetch_count w = 0%nat
  /\ exists features w',
       @search Sample.host (Sample.provider ∅) Sample.zip_query 3 w_ok
       = (Return features, w')
       /\ length features = 1%nat
       /\ fetch_count w' = 1%nat.
Proof.
  cbv zeta. split; [reflexivity|]. split; [reflexivity|].
  do 2 eexists. split; [vm_compute; reflexivity|]. split; reflexivity.
Qed.

(** C7 (as amended).  On a valid query, an error raised by the cache
    collaborator makes [search] fail with that error: a failed lookup
    before anything is sent, a failed deletion of an expired row before
    anything is sent, and a failed store after the pages have been
    fetched, whose listings are then not returned. *)
Theorem search_cache_error_propagates `{Host} (this : RealtorProvider)
    (params : JS.object) (fuel : nat) (w : World) :
  SearchParamsSchema params = true ->
  let hash := computeHash params in
  (cache_rejects w FindUnique = true ->
   search this params fuel w = (Throw (CacheFailure FindUnique), w))
  /\ (forall row,
        cache_rejects w FindUnique = false ->
        rows w !! hash = Some row ->
        fresh this (now w) row = false ->
        cache_rejects w Delete = true ->
        search this params fuel w
        = (Throw (CacheFailure Delete), record (CacheRead hash) w)
        /\ fetch_count (record (CacheRead hash) w) = fetch_count w)
  /\ (forall allFeatures w1,
        cache_rejects w FindUnique = false ->
        rows w !! hash = None ->
        pages this params fuel 1 [] (record (CacheRead hash) w)
        = (Return allFeatures, w1) ->
        allFeatures <> [] ->
        cache_rejects w Upsert = true ->
        search this params fuel w = (Throw (CacheFailure Upsert), w1)).
Proof.
  intros Hvalid hash. split; [|split].
  - intros Hfind. rewrite (search_valid this params fuel w Hvalid).
    unfold bind, findUnique. now rewrite Hfind.
  - intros row Hfind Hrow Hstale Hdel.
    rewrite (search_valid this params fuel w Hvalid).
    unfold bind at 1, findUnique. fold hash. rewrite Hfind, Hrow.
    cbn [now record]. rewrite Hstale.
    unfold bind, delete_row. cbn [cache_rejects record]. rewrite Hdel.
    split; reflexivity.
  - intros allFeatures w1 Hfind Hrow Hpages Hne Hup.
    rewrite (search_valid this params fuel w Hvalid).
    unfold bind at 1, findUnique. fold hash. rewrite Hfind, Hrow.
    unfold fetch_and_store, try_catch. unfold bind at 1. rewrite Hpages.
    destruct allFeatures as [|f rest]; [congruence|].
    cbn [length Nat.ltb Nat.leb].
    pose proof (steady_pages this params fuel 1 []
                  (record (CacheRead hash) w)) as (_ & Hrej & _).
    rewrite Hpages in Hrej. cbn [snd cache_rejects record] in Hrej.
    unfold bind, upsert. now rewrite Hrej, Hup.
Qed.

Lemma search_cache_error_propagates_witness :
  (let w := Sample.with_cache ∅ Sample.broken 0
              (Sample.world ∅ Sample.serving) in
   @search Sample.host (Sample.provider ∅) Sample.zip_query 3 w
   = (Throw (CacheFailure FindUnique), w))
  /\ (let w := Sample.with_cache ∅ Sample.store_broken 0
                 (Sample.world ∅ Sample.serving) in
      fst (@search Sample.host (Sample.provider ∅) Sample.zip_query 3 w)
      = Throw (CacheFailure Upsert)).
Proof.
  split; intros w.
  - exact (proj1 (@search_cache_error_propagates Sample.host
                    (Sample.provider ∅) Sample.zip_query 3 w eq_refl)
             eq_refl).
  - pose proof (proj2 (proj2 (@search_cache_error_propagates Sample.host
                                (Sample.provider ∅) Sample.zip_query 3 w
                                eq_refl))) as Hstore.
    destruct (@pages Sample.host (Sample.provider ∅) Sample.zip_query 3 1 []
                (record (CacheRead (@computeHash Sample.host Sample.zip_query))
                   w))
      as [[features| |] w1] eqn:Hpages;
      try (vm_compute in Hpages; discriminate).
    rewrite (Hstore features w1 eq_refl eq_refl eq_refl);
      [reflexivity| |reflexivity].
    vm_compute in Hpages. injection Hpages as <- _. discriminate.
Defined.

(** ** Fields of objects, and prices read from strings *)

Section Fields.

Import JS Realtor.

Lemma lookup_update_field_eq (k : string) (v : value) (o : object) :
  has_field k o = true -> lookup_field k (update_field k v o) = v.
Proof.
  induction o as [|[k' v'] o IH]; cbn; [discriminate|].
  destruct (String.eqb_spec k k') as [->|Hne]; cbn.
  - now rewrite String.eqb_refl.
  - intros Hhas. destruct (String.eqb_spec k k'); [contradiction|]. auto.
Qed.

Lemma lookup_update_field_ne (k k' : string) (v : value) (o : object) :
  k <> k' -> lookup_field k (update_field k' v o) = lookup_field k o.
Proof.
  intros Hne. induction o as [|[k2 v2] o IH]; cbn; [reflexivity|].
  destruct (String.eqb_spec k' k2) as [->|Hne2]; cbn.
  - destruct (String.eqb_spec k k2); [contradiction|reflexivity].
  - destruct (String.eqb k k2); auto.
Qed.

Lemma lookup_absent (k : string) (o : object) :
  has_field k o = false -> lookup_field k o = Undefined.
Proof.
  induction o as [|[k' v'] o IH]; cbn; [reflexivity|].
  destruct (String.eqb k k'); cbn; [discriminate|auto].
Qed.

Lemma lookup_insert_index_eq (k : string) (i : Z) (v : value) (o : object) :
  has_field k o = false -> lookup_field k (insert_index i k v o) = v.
Proof.
  induction o as [|[k2 v2] o IH]; cbn.
  - now rewrite String.eqb_refl.
  - destruct (String.eqb k k2) eqn:E2; cbn; [discriminate|]. intros Hno.
    destruct (index_before i k2); cbn.
    + now rewrite String.eqb_refl.
    + rewrite E2. auto.
Qed.

Lemma lookup_insert_index_ne (k k' : string) (i : Z) (v : value)
    (o : object) :
  k <> k' -> lookup_field k (insert_index i k' v o) = lookup_field k o.
Proof.
  intros Hne. induction o as [|[k2 v2] o IH]; cbn.
  - destruct (String.eqb_spec k k'); [contradiction|reflexivity].
  - destruct (index_before i k2); cbn.
    + destruct (String.eqb_spec k k'); [contradiction|reflexivity].
    + destruct (String.eqb k k2); auto.
Qed.

Lemma lookup_app_field (k k' : string) (v : value) (o : object) :
  lookup_field k (o ++ [(k', v)])
  = if has_field k o then lookup_field k o
    else if String.eqb k k' then v else Undefined.
Proof.
  induction o as [|[k2 v2] o IH]; cbn; [reflexivity|].
  destruct (String.eqb k k2); cbn; auto.
Qed.

(** Reading the field that was just written. *)
Lemma lookup_set_field_eq (k : string) (v : value) (o : object) :
  lookup_field k (set_field k v o) = v.
Proof.
  unfold set_field. destruct (has_field k o) eqn:Hhas.
  - now apply lookup_update_field_eq.
  - destruct (array_index k).
    + now apply lookup_insert_index_eq.
    + rewrite lookup_app_field, Hhas. now rewrite String.eqb_refl.
Qed.

(** Writing a field leaves the others as they were. *)
Lemma lookup_set_field_ne (k k' : string) (v : value) (o : object) :
  k <> k' -> lookup_field k (set_field k' v o) = lookup_field k o.
Proof.
  intros Hne. unfold set_field. destruct (has_field k' o).
  - now apply lookup_update_field_ne.
  - destruct (array_index k').
    + now apply lookup_insert_index_ne.
    + rewrite lookup_app_field.
      destruct (has_field k o) eqn:Hhas; [reflexivity|].
      destruct (String.eqb_spec k k'); [contradiction|].
      symmetry. now apply lookup_absent.
Qed.

End Fields.

Section Prices.

Import JS Realtor.









End Prices.


(** ** transformListing *)







Lemma square_numeric (lon lat : JS.number) :
  forallb numeric_position (hd [] (square lon lat))
  = negb (JS.isNaN lon) && negb (JS.isNaN lat).
Proof.
  unfold square, numeric_position, d. cbn.
  rewrite !isNaN_sub_fin, !isNaN_add_fin.
  destruct (JS.isNaN lon), (JS.isNaN lat); reflexivity.
Qed.







(** ** The limiter: capacity, bursts and callers in sequence *)

Section Bucket.

Import JS RateLimiter Callers.

Lemma refill_capacity (now : Z) (l : TokenBucketLimiter) :
  capacity (refill now l) = capacity l
  /\ refillRate (refill now l) = refillRate l.
Proof. unfold refill. now destruct (gtb _ _). Qed.

Lemma step_capacity (s s1 : sched) (e : event) :
  step s e = Some s1 ->
  capacity (bucket s1) = capacity (bucket s)
  /\ refillRate (bucket s1) = refillRate (bucket s).
Proof.
  unfold step.
  destruct e as [now|now]; destruct (clock s <=? now)%Z; try discriminate.
  - unfold waitForToken_enter.
    destruct (geb _ _); intros [= <-]; cbn; apply refill_capacity.
  - destruct (fire now (timers s)); intros [= <-]. cbn.
    apply refill_capacity.
Qed.

Lemma run_capacity (es : list event) (s s1 : sched) :
  run s es = Some s1 ->
  capacity (bucket s1) = capacity (bucket s)
  /\ refillRate (bucket s1) = refillRate (bucket s).
Proof.
  revert s. induction es as [|e es IH]; intros s; simpl.
  - now intros [= <-].
  - destruct (step s e) as [s2|] eqn:Hstep; [|discriminate].
    intros Hrun. destruct (IH _ Hrun) as [-> ->].
    eapply step_capacity; eassumption.
Qed.

Lemma zero_elapsed (rate : number) :
  gtb (mul (of_Z 0) rate) (of_Z 0) = false.
Proof.
  now destruct rate.
Qed.

Lemma refill_same_instant (l : TokenBucketLimiter) :
  refill (lastRefill l) l = l.
Proof.
  unfold refill. rewrite Z.sub_diag. now rewrite zero_elapsed.
Qed.

End Bucket.

(** X1.  However the calls to [waitForToken] interleave, a limiter
    created with a finite capacity never holds more tokens than that
    capacity, and its capacity and refill rate never change. *)
Theorem limiter_never_exceeds_capacity (c : Q) (rate : JS.number) (t0 : Z)
    (es : list event) (s : sched) :
  run (start (create (JS.Fin c) rate t0) t0) es = Some s ->
  capacity (bucket s) = JS.Fin c
  /\ refillRate (bucket s) = rate
  /\ exists t, tokens (bucket s) = JS.Fin t /\ (t <= c)%Q.
Proof.
  intros Hrun.
  destruct (run_capacity es _ _ Hrun) as [Hc Hr]. cbn in Hc, Hr.
  repeat split; try assumption.
  destruct (run_within_capacity es (start (create (JS.Fin c) rate t0) t0) s
              (create_within_capacity c rate t0) Hrun)
    as (c' & t & Hc' & Ht & Hle).
  exists t. split; [assumption|].
  rewrite Hc in Hc'. now injection Hc' as ->.
Qed.

Lemma limiter_never_exceeds_capacity_witness :
  exists s,
    run (start (create (JS.Fin 30) (JS.Fin (1 # 2)) 0) 0)
      (replicate 32 (Call 0) ++ [Wake 2; Call 2; Wake 3; Call 1000])
    = Some s
    /\ exists t, tokens (bucket s) = JS.Fin t /\ (t <= 30)%Q.
Proof.
  eexists. split; [vm_compute; reflexivity|].
  refine (proj2 (proj2
    (limiter_never_exceeds_capacity 30 (JS.Fin (1 # 2)) 0
       (replicate 32 (Call 0) ++ [Wake 2; Call 2; Wake 3; Call 1000]) _ _))).
  vm_compute. reflexivity.
Defined.

(** X2.  Refilling twice at the same instant adds nothing the second
    time: the elapsed time is counted once. *)
Theorem refill_idempotent (now : Z) (l : TokenBucketLimiter) :
  refill now (refill now l) = refill now l.
Proof.
  pose proof (refill_same_instant (refill now l)) as Hsame.
  assert (refill now l = l \/ lastRefill (refill now l) = now) as [Hl|Hl].
  { unfold refill. destruct (JS.gtb _ _); auto. }
  - now rewrite !Hl.
  - now rewrite Hl in Hsame.
Qed.

Section Sequential.

Import JS RateLimiter Callers.







End Sequential.



Section Burst.

Import JS RateLimiter.

Lemma Qred_inject_Z (q : Q) (z : Z) :
  (q == inject_Z z)%Q -> Qred q = inject_Z z.
Proof.
  intros Hq. rewrite (Qred_complete _ _ Hq).
  unfold Qred, inject_Z.
  pose proof (Z.ggcd_gcd z 1) as Hg.
  pose proof (Z.ggcd_correct_divisors z 1) as Hd.
  destruct (Z.ggcd z 1) as [g [a b]]. cbn [fst snd] in *.
  rewrite Z.gcd_1_r in Hg. subst g. destruct Hd as [-> Hb].
  assert (b = 1) as -> by lia. f_equal. lia.
Qed.

Lemma sub_of_Z (a b : Z) : sub (of_Z a) (of_Z b) = of_Z (a - b).
Proof.
  unfold sub, neg, add, of_Z. f_equal. apply Qred_inject_Z.
  rewrite Qred_correct. unfold Z.sub.
  now rewrite inject_Z_plus, inject_Z_opp.
Qed.

Lemma refill_set_tokens_same_instant (t : number) (l : TokenBucketLimiter) :
  refill (lastRefill l) (set_tokens t l) = set_tokens t l.
Proof. apply (refill_same_instant (set_tokens t l)). Qed.

(** A bucket holding [k] whole tokens serves [k] calls made at the
    instant of its last refill, and is empty afterwards. *)
Lemma run_burst (k : nat) (l : TokenBucketLimiter) (done : nat) :
  run {| bucket := set_tokens (of_Z (Z.of_nat k)) l; timers := [];
         clock := lastRefill l; completed := done |}
    (replicate k (Call (lastRefill l)))
  = Some {| bucket := set_tokens (of_Z 0) l; timers := [];
            clock := lastRefill l; completed := (k + done)%nat |}.
Proof.
  revert done. induction k as [|k IH]; intros done; [reflexivity|].
  cbn [replicate run step clock bucket timers completed].
  rewrite Z.leb_refl. unfold waitForToken_enter.
  rewrite refill_set_tokens_same_instant.
  cbn [tokens set_tokens].
  assert (geb (of_Z (Z.of_nat (S k))) (of_Z 1) = true) as ->.
  { cbn. apply Qle_bool_iff. rewrite <- Zle_Qle. lia. }
  unfold consume. cbn [tokens set_tokens lastRefill capacity refillRate].
  rewrite sub_of_Z.
  replace (Z.of_nat (S k) - 1) with (Z.of_nat k) by lia.
  change {| tokens := of_Z (Z.of_nat k); lastRefill := lastRefill l;
            capacity := capacity l; refillRate := refillRate l |}
    with (set_tokens (of_Z (Z.of_nat k)) l).
  rewrite IH. do 2 f_equal. lia.
Qed.

End Burst.

(** X4.  The burst a limiter allows is its capacity: a limiter created
    with a capacity of [n] whole tokens lets [n] calls made at that
    instant through at once, whatever its refill rate, and suspends the
    next call for [ceil(1 / refillRate)] milliseconds. *)
Theorem burst_is_capacity (n : nat) (rate : JS.number) (t0 : Z) :
  let l0 := create (JS.of_Z (Z.of_nat n)) rate t0 in
  let empty := set_tokens (JS.of_Z 0) l0 in
  run (start l0 t0) (replicate n (Call t0))
  = Some {| bucket := empty; timers := []; clock := t0; completed := n |}
  /\ run (start l0 t0) (replicate n (Call t0) ++ [Call t0])
     = Some {| bucket := empty;
               timers :=
                 [t0 + timer_delay (JS.ceil (JS.div (JS.of_Z 1) rate))];
               clock := t0; completed := n |}.
Proof.
  intros l0 empty.
  pose proof (run_burst n l0 0) as Hrun.
  rewrite Nat.add_0_r in Hrun.
  change (lastRefill l0) with t0 in Hrun.
  change {| bucket := set_tokens (JS.of_Z (Z.of_nat n)) l0; timers := [];
            clock := t0; completed := 0 |} with (start l0 t0) in Hrun.
  split; [exact Hrun|].
  assert (forall es1 es2 s s1,
             run s es1 = Some s1 -> run s (es1 ++ es2) = run s1 es2) as Happ.
  { induction es1 as [|e es1 IH]; intros es2 s s1; cbn [run app].
    - now intros [= ->].
    - destruct (step s e); [apply IH|discriminate]. }
  rewrite (Happ _ _ _ _ Hrun).
  cbn [run step clock bucket timers completed]. rewrite Z.leb_refl.
  unfold waitForToken_enter.
  pose proof (refill_set_tokens_same_instant (JS.of_Z 0) l0) as Hsame.
  change (lastRefill l0) with t0 in Hsame.
  subst empty. rewrite !Hsame.
  change (JS.geb (JS.of_Z 0) (JS.of_Z 1)) with false.
  cbn [tokens set_tokens refillRate l0 create].
  rewrite sub_of_Z. reflexivity.
Qed.

Section Registry.

Import JS RateLimiter.

Lemma getLimiter_registered (name : string) (now : Z)
    (r : ProviderRateLimiter) :
  is_Some (limiters (getLimiter name now r) !! name).
Proof.
  unfold getLimiter. destruct (limiters r !! name) eqn:E.
  - now rewrite E.
  - cbn. rewrite lookup_insert_eq. eauto.
Qed.

Lemma getLimiter_present (name : string) (now : Z) (r : ProviderRateLimiter) :
  is_Some (limiters r !! name) -> getLimiter name now r = r.
Proof. intros [l Hl]. unfold getLimiter. now rewrite Hl. Qed.

End Registry.

(** X5.  There is one limiter per provider name and every provider
    instance shares it: constructing a provider registers the limiter of
    [realtor16] if there is none, and constructing another one later,
    also after tokens have been taken, leaves the registry as it is (the
    bucket is not reset); limiters of other names are untouched. *)
Theorem constructor_shares_limiter (env1 env2 : gmap string string)
    (t1 t2 : Z) (r : ProviderRateLimiter) :
  let r1 := snd (constructor env1 t1 r) in
  is_Some (limiters r1 !! providerName)
  /\ snd (constructor env2 t2 r1) = r1
  /\ (forall w,
         snd (constructor env2 t2 (registry (snd (acquire w))))
         = registry (snd (acquire w)))
  /\ (forall name,
         name <> providerName -> limiters r1 !! name = limiters r !! name).
Proof.
  cbn [constructor snd]. unfold getRateLimiter.
  split; [apply getLimiter_registered|].
  split; [apply getLimiter_present, getLimiter_registered|].
  split.
  - intros w. apply getLimiter_present.
    unfold acquire. destruct (waitForToken _ _ _) as [l1 t].
    cbn. rewrite lookup_insert_eq. eauto.
  - intros name Hne. unfold getLimiter.
    destruct (limiters r !! providerName); [reflexivity|].
    cbn. now rewrite lookup_insert_ne.
Qed.

Lemma constructor_shares_limiter_witness :
  limiters (snd (constructor ∅ 0 (providerRateLimiter ∅))) !! "zillow"
  = None.
Proof.
  rewrite (proj2 (proj2 (proj2
             (constructor_shares_limiter ∅ ∅ 0 0 (providerRateLimiter ∅))))
             "zillow") by discriminate.
  reflexivity.
Defined.

(** ** fetchPage: how many requests, and how long it waits *)

Section Attempts.

Import JS RateLimiter Realtor Trace.

Context `{Host}.

Variable this : RealtorProvider.


Lemma trace_counts (new : list effect) (w w' : World) :
  trace w' = (new ++ trace w)%list ->
  fetch_count w' = (length (List.filter is_fetch new) + fetch_count w)%nat
  /\ token_count w' = (length (List.filter is_token new) + token_count w)%nat.
Proof.
  intros T. unfold fetch_count, token_count.
  now rewrite T, !List.filter_app, !length_app.
Qed.

Lemma extends_fetch_count (new : list effect) (w w' : World) :
  extends new w w' ->
  fetch_count w' = (length (List.filter is_fetch new) + fetch_count w)%nat
  /\ token_count w' = (length (List.filter is_token new) + token_count w)%nat.
Proof. intros (T & _). now apply trace_counts. Qed.

Lemma acquire_extends (w : World) :
  exists w1, acquire w = (Return tt, w1) /\ extends [TokenTaken] w w1.
Proof.
  unfold acquire. destruct (waitForToken _ _ _) as [l1 t1].
  eexists. split; [reflexivity|]. unfold extends. cbn. repeat split.
Qed.

Lemma sleep_extends (ms : number) (w : World) :
  exists w1, sleep ms w = (Return tt, w1) /\ extends [Slept ms] w w1.
Proof.
  eexists. split; [reflexivity|]. unfold extends. cbn. repeat split.
Qed.

Lemma fetch_extends (req : Request) (w : World) :
  exists w1,
    fetch req w
    = (match upstream w (fetch_count w) req with
       | Resolved r => Return r
       | Rejected m => Throw (NetworkFailure m)
       end, w1)
    /\ extends [Fetched req] w w1.
Proof.
  unfold fetch. exists (record (Fetched req) w). split.
  - now destruct (upstream w _ _).
  - unfold extends. cbn. repeat split.
Qed.

Lemma extends_nil (w : World) : extends [] w w.
Proof. unfold extends. repeat split. Qed.

Lemma retry_delay_trace (r : Response) (attempt : Z) (w : World) :
  exists ms w1,
    retry_delay this r attempt w = (Return ms, w1) /\ trace w1 = trace w.
Proof.
  unfold retry_delay. destruct (truthy _).
  - destruct (parseInt _); do 2 eexists; (split; reflexivity).
  - do 2 eexists. split; reflexivity.
Qed.

(** One attempt sends one request and takes no token. *)
Lemma try_attempt_counts (req : Request) (attempt : Z) (w : World) :
  fetch_count (snd (try_attempt this req attempt w)) = S (fetch_count w)
  /\ token_count (snd (try_attempt this req attempt w)) = token_count w.
Proof.
  enough (forall w', snd (try_attempt this req attempt w) = w' ->
            fetch_count w' = S (fetch_count w)
            /\ token_count w' = token_count w) as Hgoal by eauto.
  intros w'. unfold try_attempt, bind at 1.
  destruct (fetch_extends req w) as (w1 & -> & F1).
  apply extends_fetch_count in F1 as [F1 T1]. cbn in F1, T1.
  destruct (upstream w (fetch_count w) req) as [r|m]; cbn [snd];
    [|intros <-; auto].
  destruct (status r =? 429).
  - destruct (retry_delay_trace r attempt w1) as (ms & w2 & Hdelay & F2).
    apply (trace_counts []) in F2 as [F2 T2]. cbn in F2, T2.
    unfold bind at 1. rewrite Hdelay.
    destruct (retries_left this attempt); cbn [snd throw];
      [|intros <-; lia].
    destruct (sleep_extends ms w2) as (w3 & Hsleep & F3).
    apply extends_fetch_count in F3 as [F3 T3]. cbn in F3, T3.
    unfold bind at 1. rewrite Hsleep. cbn [snd ret]. intros <-. lia.
  - destruct (negb (ok r)); [intros <-; auto|].
    destruct (json r); intros <-; auto.
Qed.

(** The retry loop with [n] iterations to go sends at most [n]
    requests, and takes one token for each request it sends. *)
Lemma attempts_counts (req : Request) (page : Z) (n : nat) (attempt : Z)
    (last : option error) (w : World) :
  let w' := snd (attempts this req page n attempt last w) in
  (fetch_count w <= fetch_count w' <= fetch_count w + n)%nat
  /\ (token_count w' + fetch_count w = token_count w + fetch_count w')%nat.
Proof.
  revert attempt last w. induction n as [|n IH]; intros attempt last w.
  - cbn. lia.
  - intros w'. subst w'.
    enough (forall w', snd (attempts this req page (S n) attempt last w) = w' ->
              (fetch_count w <= fetch_count w' <= fetch_count w + S n)%nat
              /\ (token_count w' + fetch_count w
                  = token_count w + fetch_count w')%nat) as Hgoal by eauto.
    intros w'. cbn [attempts].
    destruct (acquire_extends w) as (w1 & Hacq & F1).
    apply extends_fetch_count in F1 as [F1 T1]. cbn in F1, T1.
    unfold bind at 1. rewrite Hacq. unfold try_catch.
    destruct (try_attempt_counts req attempt w1) as [F2 T2].
    destruct (try_attempt this req attempt w1) as [[[data|]|e|] w2];
      cbn [snd] in *.
    + cbn [ret snd]. intros <-. lia.
    + specialize (IH (attempt + 1) last w2). cbn zeta in IH.
      intros <-. lia.
    + destruct (is_last this attempt); cbn [snd throw]; [intros <-; lia|].
      destruct (sleep_extends
                  (mul (of_int (initialBackoffMs this)) (pow2 attempt)) w2)
        as (w3 & Hsleep & F3).
      apply extends_fetch_count in F3 as [F3 T3]. cbn in F3, T3.
      unfold bind at 1. rewrite Hsleep.
      specialize (IH (attempt + 1) (Some e) w3). cbn zeta in IH.
      intros <-. lia.
    + intros <-. lia.
Qed.

End Attempts.

(** X6.  [fetchPage] never sends more requests for a page than the
    retry loop has iterations ([maxRetries + 1]), whatever the upstream
    answers, and every request it sends is preceded by a token taken
    from the limiter: the tokens taken and the requests sent grow by the
    same number. *)
Theorem fetchPage_request_bound `{Host} (this : RealtorProvider)
    (params : JS.object) (page : Z) (w : World) :
  let w' := snd (fetchPage this params page w) in
  (fetch_count w <= fetch_count w' <= fetch_count w + iterations this)%nat
  /\ (Trace.token_count w' + fetch_count w
      = Trace.token_count w + fetch_count w')%nat.
Proof.
  unfold fetchPage. destruct (request_of params page) as [req|].
  - apply attempts_counts.
  - cbn. lia.
Qed.

Section Exhaustion.

Import JS RateLimiter Realtor Trace.

Context `{Host}.

Variable this : RealtorProvider.

Lemma fetch_run_rejected (req : Request) (w : World) (message : string) :
  upstream w (fetch_count w) req = Rejected message ->
  exists w1,
    fetch req w = (Throw (NetworkFailure message), w1)
    /\ after_fetches 1 w w1.
Proof.
  intros Hup. unfold fetch. rewrite Hup.
  eexists. split; [reflexivity|].
  unfold after_fetches, fetch_count. cbn. repeat split; auto.
  now rewrite Nat.add_1_r.
Qed.

(** A 429 on the last attempt ends the loop with the error that names
    the retry budget. *)
Lemma attempts_429_last (req : Request) (page : Z) (rest : nat)
    (attempt : Z) (last : option error) (w : World) (r : Response) :
  upstream w (fetch_count w) req = Resolved r ->
  status r = 429 ->
  retries_left this attempt = false ->
  is_last this attempt = true ->
  exists w1,
    attempts this req page (S rest) attempt last w
    = (Throw (TooManyRequests (maxRetries this)), w1)
    /\ after_fetches 1 w w1.
Proof.
  intros Hup Hst Hleft Hlast. cbn [attempts].
  destruct (acquire_run w) as (w1 & Hacq & F1).
  destruct (fetch_run req w1 r) as (w2 & Hfetch & F2).
  { destruct F1 as (-> & -> & _). now rewrite Nat.add_0_r. }
  destruct (retry_delay_run this r attempt w2) as (ms & w3 & Hdelay & F3).
  exists w3. split.
  - unfold bind at 1. rewrite Hacq.
    unfold try_catch, try_attempt. unfold bind at 1. rewrite Hfetch.
    rewrite Hst. cbn [Z.eqb Pos.eqb]. unfold bind at 1. rewrite Hdelay.
    rewrite Hleft. cbn [throw]. now rewrite Hlast.
  - exact (after_fetches_trans _ _ _ _ _ F1
             (after_fetches_trans _ _ _ _ _ F2 F3)).
Qed.

(** A request that cannot be sent is retried after the backoff, and the
    error is kept. *)
Lemma attempts_rejected (req : Request) (page : Z) (rest : nat)
    (attempt : Z) (last : option error) (w : World) (message : string) :
  upstream w (fetch_count w) req = Rejected message ->
  is_last this attempt = false ->
  exists w1,
    attempts this req page (S rest) attempt last w
    = attempts this req page rest (attempt + 1)
        (Some (NetworkFailure message)) w1
    /\ after_fetches 1 w w1.
Proof.
  intros Hup Hlast. cbn [attempts].
  destruct (acquire_run w) as (w1 & Hacq & F1).
  destruct (fetch_run_rejected req w1 message) as (w2 & Hfetch & F2).
  { destruct F1 as (-> & -> & _). now rewrite Nat.add_0_r. }
  destruct (sleep_run (mul (of_int (initialBackoffMs this)) (pow2 attempt)) w2)
    as (w3 & Hsleep & F3).
  exists w3. split.
  - unfold bind at 1. rewrite Hacq.
    unfold try_catch, try_attempt. unfold bind at 1. rewrite Hfetch.
    rewrite Hlast. unfold bind at 1. rewrite Hsleep. reflexivity.
  - exact (after_fetches_trans _ _ _ _ _ F1
             (after_fetches_trans _ _ _ _ _ F2 F3)).
Qed.

Lemma attempts_rejected_last (req : Request) (page : Z) (rest : nat)
    (attempt : Z) (last : option error) (w : World) (message : string) :
  upstream w (fetch_count w) req = Rejected message ->
  is_last this attempt = true ->
  exists w1,
    attempts this req page (S rest) attempt last w
    = (Throw (NetworkFailure message), w1)
    /\ after_fetches 1 w w1.
Proof.
  intros Hup Hlast. cbn [attempts].
  destruct (acquire_run w) as (w1 & Hacq & F1).
  destruct (fetch_run_rejected req w1 message) as (w2 & Hfetch & F2).
  { destruct F1 as (-> & -> & _). now rewrite Nat.add_0_r. }
  exists w2. split.
  - unfold bind at 1. rewrite Hacq.
    unfold try_catch, try_attempt. unfold bind at 1. rewrite Hfetch.
    now rewrite Hlast.
  - exact (after_fetches_trans _ _ _ _ _ F1 F2).
Qed.

Lemma last_attempt (m : Z) :
  maxRetries this = Some m ->
  retries_left this m = false /\ is_last this m = true.
Proof.
  intros Hm. unfold retries_left, is_last. rewrite Hm. lia.
Qed.

(** With [n] retries left, [n + 1] answers of 429 exhaust the loop. *)
Lemma attempts_429_exhaust (req : Request) (page : Z) (m : Z) (n : nat)
    (attempt : Z) (last : option error) (w : World) :
  maxRetries this = Some m ->
  attempt + Z.of_nat n = m ->
  (forall k, (k <= n)%nat ->
     exists r, upstream w (fetch_count w + k)%nat req = Resolved r
               /\ status r = 429) ->
  exists w',
    attempts this req page (S n) attempt last w
    = (Throw (TooManyRequests (Some m)), w')
    /\ after_fetches (S n) w w'.
Proof.
  intros Hm. revert attempt last w.
  induction n as [|n IH]; intros attempt last w Hn Hup.
  - destruct (Hup 0%nat) as (r & Hr & Hst); [lia|].
    rewrite Nat.add_0_r in Hr.
    assert (attempt = m) as -> by lia.
    destruct (last_attempt m Hm) as [Hleft Hlast].
    destruct (attempts_429_last req page 0 m last w r)
      as (w1 & Hrun & F1); auto.
    exists w1. now rewrite Hrun, Hm.
  - destruct (Hup 0%nat) as (r & Hr & Hst); [lia|].
    rewrite Nat.add_0_r in Hr.
    destruct (retries_left_below this m attempt Hm) as [Hleft _]; [lia|].
    destruct (attempts_429 this req page (S n) attempt last w r)
      as (w1 & Hrun & F1); auto.
    destruct (IH (attempt + 1) last w1) as (w' & Hrest & F'); [lia| |].
    + intros k Hk. destruct F1 as (-> & -> & _).
      destruct (Hup (S k)) as (r' & Hr' & Hst'); [lia|].
      exists r'. split; [|assumption].
      now replace (fetch_count w + 1 + k)%nat
        with (fetch_count w + S k)%nat by lia.
    + exists w'. split; [now rewrite Hrun|].
      exact (after_fetches_trans _ _ _ _ _ F1 F').
Qed.

(** With [n] retries left, [n + 1] requests that cannot be sent exhaust
    the loop, which fails with the error of the last one. *)
Lemma attempts_rejected_exhaust (req : Request) (page : Z) (m : Z) (n : nat)
    (attempt : Z) (last : option error) (w : World)
    (message : nat -> string) :
  maxRetries this = Some m ->
  attempt + Z.of_nat n = m ->
  (forall k, (k <= n)%nat ->
     upstream w (fetch_count w + k)%nat req
     = Rejected (message (fetch_count w + k)%nat)) ->
  exists w',
    attempts this req page (S n) attempt last w
    = (Throw (NetworkFailure (message (fetch_count w + n)%nat)), w')
    /\ after_fetches (S n) w w'.
Proof.
  intros Hm. revert attempt last w.
  induction n as [|n IH]; intros attempt last w Hn Hup.
  - pose proof (Hup 0%nat (Nat.le_refl _)) as Hr.
    rewrite Nat.add_0_r in *.
    assert (attempt = m) as -> by lia.
    destruct (last_attempt m Hm) as [_ Hlast].
    apply attempts_rejected_last; auto.
  - pose proof (Hup 0%nat (Nat.le_0_l _)) as Hr.
    rewrite Nat.add_0_r in Hr.
    destruct (retries_left_below this m attempt Hm) as [_ Hlast]; [lia|].
    destruct (attempts_rejected req page (S n) attempt last w _ Hr Hlast)
      as (w1 & Hrun & F1).
    destruct (IH (attempt + 1) (Some (NetworkFailure (message (fetch_count w))))
                w1) as (w' & Hrest & F'); [lia| |].
    + intros k Hk. destruct F1 as (-> & -> & _).
      replace (fetch_count w + 1 + k)%nat
        with (fetch_count w + S k)%nat by lia.
      apply Hup. lia.
    + exists w'. split.
      * rewrite Hrun, Hrest. destruct F1 as (_ & -> & _).
        now replace (fetch_count w + 1 + n)%nat
          with (fetch_count w + S n)%nat by lia.
      * exact (after_fetches_trans _ _ _ _ _ F1 F').
Qed.

Lemma iterations_exact (m : Z) :
  maxRetries this = Some m -> 0 <= m ->
  iterations this = S (Z.to_nat m).
Proof. intros Hm Hm0. unfold iterations. rewrite Hm. lia. Qed.

End Exhaustion.

(** X7.  When the upstream keeps answering 429, [fetchPage] sends
    exactly [maxRetries + 1] requests and then fails with the error that
    names the retry budget; the cache is not touched. *)
Theorem fetchPage_throttled_to_exhaustion `{Host} (this : RealtorProvider)
    (params : JS.object) (page : Z) (req : Request) (w : World) (m : Z) :
  request_of params page = Some req ->
  maxRetries this = Some m -> 0 <= m ->
  (forall k, (k <= Z.to_nat m)%nat ->
     exists r, upstream w (fetch_count w + k)%nat req = Resolved r
               /\ status r = 429) ->
  exists w',
    fetchPage this params page w = (Throw (TooManyRequests (Some m)), w')
    /\ fetch_count w' = (fetch_count w + Z.to_nat m + 1)%nat
    /\ rows w' = rows w.
Proof.
  intros Hreq Hm Hm0 Hup. unfold fetchPage.
  rewrite Hreq, (iterations_exact this m Hm Hm0).
  destruct (attempts_429_exhaust this req page m (Z.to_nat m) 0 None w)
    as (w' & Hrun & (_ & F & _ & R)); auto; [lia|].
  exists w'. repeat split; auto. lia.
Qed.

(** X8.  When no request can be sent (every [fetch] rejects),
    [fetchPage] tries [maxRetries + 1] times and then fails with the
    error of the last attempt. *)
Theorem fetchPage_unreachable `{Host} (this : RealtorProvider)
    (params : JS.object) (page : Z) (req : Request) (w : World) (m : Z)
    (message : nat -> string) :
  request_of params page = Some req ->
  maxRetries this = Some m -> 0 <= m ->
  (forall k, (k <= Z.to_nat m)%nat ->
     upstream w (fetch_count w + k)%nat req
     = Rejected (message (fetch_count w + k)%nat)) ->
  exists w',
    fetchPage this params page w
    = (Throw (NetworkFailure (message (fetch_count w + Z.to_nat m)%nat)), w')
    /\ fetch_count w' = (fetch_count w + Z.to_nat m + 1)%nat
    /\ rows w' = rows w.
Proof.
  intros Hreq Hm Hm0 Hup. unfold fetchPage.
  rewrite Hreq, (iterations_exact this m Hm Hm0).
  destruct (attempts_rejected_exhaust this req page m (Z.to_nat m) 0 None w
              message)
    as (w' & Hrun & (_ & F & _ & R)); auto; [lia|].
  exists w'. repeat split; auto. lia.
Qed.

Section Delays.

Import JS RateLimiter Realtor Trace.

Context `{Host}.

Variable this : RealtorProvider.






End Delays.




Lemma fetchPage_throttled_to_exhaustion_witness :
  exists w',
    @fetchPage Sample.host (Sample.provider ∅) Sample.zip_query 1
      (Sample.world ∅ Cases.throttling)
    = (Throw (TooManyRequests (Some 5)), w')
    /\ fetch_count w' = 6%nat
    /\ rows w' = ∅.
Proof.
  refine (@fetchPage_throttled_to_exhaustion Sample.host (Sample.provider ∅)
            Sample.zip_query 1 _ (Sample.world ∅ Cases.throttling) 5
            eq_refl eq_refl _ _).
  - lia.
  - intros k _. eexists. split; reflexivity.
Defined.

Lemma fetchPage_unreachable_witness :
  exists w',
    @fetchPage Sample.host (Sample.provider ∅) Sample.zip_query 1
      (Sample.world ∅ Sample.unreachable)
    = (Throw (NetworkFailure "fetch failed"), w')
    /\ fetch_count w' = 6%nat
    /\ rows w' = ∅.
Proof.
  refine (@fetchPage_unreachable Sample.host (Sample.provider ∅)
            Sample.zip_query 1 _ (Sample.world ∅ Sample.unreachable) 5
            (fun _ => "fetch failed"%string) eq_refl eq_refl _ _).
  - lia.
  - intros k _. reflexivity.
Defined.



(** ** search: what it stores, what it serves, what it collects *)

Section CacheKept.

Import JS RateLimiter Realtor Cache.

Lemma keeps_ret {A} (a : A) : keeps_cache (ret a).
Proof. now intros w. Qed.

Lemma keeps_throw {A} (e : error) : keeps_cache (@throw A e).
Proof. now intros w. Qed.

Lemma keeps_stop {A} (o : outcome A) : keeps_cache (fun w => (o, w)).
Proof. now intros w. Qed.

Lemma keeps_bind {A B} (c : M A) (k : A -> M B) :
  keeps_cache c -> (forall a, keeps_cache (k a)) -> keeps_cache (bind c k).
Proof.
  intros Hc Hk w. unfold bind. specialize (Hc w).
  destruct (c w) as [[a|e|] w1]; cbn [snd] in *; auto.
  now rewrite Hk.
Qed.

Lemma keeps_try_catch {A B} (c : M A) (k : A -> M B) (h : error -> M B) :
  keeps_cache c -> (forall a, keeps_cache (k a)) ->
  (forall e, keeps_cache (h e)) -> keeps_cache (try_catch c k h).
Proof.
  intros Hc Hk Hh w. unfold try_catch. specialize (Hc w).
  destruct (c w) as [[a|e|] w1]; cbn [snd] in *; auto.
  - now rewrite Hk.
  - now rewrite Hh.
Qed.

Lemma keeps_sleep (ms : number) : keeps_cache (sleep ms).
Proof. now intros w. Qed.

Lemma keeps_random : keeps_cache random.
Proof. now intros w. Qed.

Lemma keeps_fetch (req : Request) : keeps_cache (fetch req).
Proof. intros w. unfold fetch. now destruct (upstream w _ _). Qed.

Lemma keeps_acquire : keeps_cache acquire.
Proof. intros w. unfold acquire. now destruct (waitForToken _ _ _). Qed.

End CacheKept.

Ltac keeps :=
  repeat first
    [ apply keeps_ret | apply keeps_throw | apply keeps_stop
    | apply keeps_sleep | apply keeps_random | apply keeps_fetch
    | apply keeps_acquire
    | assumption
    | match goal with
      | |- Cache.keeps_cache (Realtor.bind _ _) =>
          apply keeps_bind; [|intros ?]
      | |- Cache.keeps_cache (Realtor.try_catch _ _ _) =>
          apply keeps_try_catch; [|intros ?|intros ?]
      | |- Cache.keeps_cache (if ?b then _ else _) => destruct b
      | |- Cache.keeps_cache (match ?x with _ => _ end) => destruct x
      end ].

Section Fetching.

Import JS RateLimiter Realtor Cache Trace.

Context `{Host}.

Variable this : RealtorProvider.

Lemma keeps_retry_delay (r : Response) (attempt : Z) :
  keeps_cache (retry_delay this r attempt).
Proof. unfold retry_delay. keeps. Qed.

Lemma keeps_try_attempt (req : Request) (attempt : Z) :
  keeps_cache (try_attempt this req attempt).
Proof. unfold try_attempt. keeps. apply keeps_retry_delay. Qed.

Lemma keeps_attempts (req : Request) (page : Z) (remaining : nat)
    (attempt : Z) (last : option error) :
  keeps_cache (attempts this req page remaining attempt last).
Proof.
  revert attempt last.
  induction remaining as [|rest IH]; intros attempt last; cbn [attempts].
  - keeps.
  - keeps; try apply keeps_try_attempt; apply IH.
Qed.

Lemma keeps_fetchPage (params : object) (page : Z) :
  keeps_cache (fetchPage this params page).
Proof. unfold fetchPage. keeps. apply keeps_attempts. Qed.

Lemma keeps_transform_all (listings : list value) :
  keeps_cache (transform_all listings).
Proof. induction listings as [|x rest IH]; cbn [transform_all]; keeps. Qed.

(** Fetching pages does not write to the cache. *)
Lemma keeps_pages (params : object) (fuel : nat) (currentPage : Z)
    (allFeatures : list GeoJSONFeature) :
  keeps_cache (pages this params fuel currentPage allFeatures).
Proof.
  revert currentPage allFeatures.
  induction fuel as [|fuel IH]; intros currentPage allFeatures;
    cbn [pages].
  - keeps.
  - apply keeps_bind; [apply keeps_fetchPage|intros response].
    destruct (negb (truthy response)); [keeps|].
    destruct (length_is_zero _); [keeps|].
    destruct (listings_of response); keeps;
      try apply keeps_transform_all; apply IH.
Qed.

(** What the fetch phase leaves in the cache: nothing new when no
    feature was collected, and otherwise one row holding the collected
    features, stamped with the time of the write. *)
Lemma fetch_and_store_result (params : object) (hash : string) (fuel : nat)
    (w w' : World) (features : list GeoJSONFeature) :
  fetch_and_store this params hash fuel w = (Return features, w') ->
  match features with
  | [] => rows w' = rows w
  | _ =>
      rows w'
      = <[hash := {| payload :=
                       JSON_stringify (Arr (map feature_value features));
                     createdAt := now w' |}]> (rows w)
  end.
Proof.
  unfold fetch_and_store, try_catch, bind at 1.
  pose proof (keeps_pages params fuel 1 [] w) as Hkeep.
  destruct (pages this params fuel 1 [] w) as [[all|e|] w1];
    cbn [snd] in Hkeep; [|discriminate|discriminate].
  destruct all as [|f all]; cbn [length Nat.ltb Nat.leb].
  - cbn. intros [= <- <-]. exact Hkeep.
  - unfold bind, upsert. destruct (cache_rejects w1 Upsert); [discriminate|].
    cbn [ret]. intros [= <- <-]. cbn. now rewrite Hkeep.
Qed.

End Fetching.

(** X11.  What a search that misses the cache leaves in it: when the
    search returns no feature the cache table is unchanged (an empty
    result is never cached); when it returns features, the table gains
    exactly one row under the hash of the query, holding the returned
    features as JSON and stamped with the time of the write. *)
Theorem search_miss_stores_result `{Host} (this : RealtorProvider)
    (params : JS.object) (fuel : nat) (w w' : World)
    (features : list GeoJSONFeature) :
  rows w !! computeHash params = None ->
  search this params fuel w = (Return features, w') ->
  match features with
  | [] => rows w' = rows w
  | _ =>
      rows w'
      = <[computeHash params :=
            {| payload :=
                 JSON_stringify (JS.Arr (map feature_value features));
               createdAt := now w' |}]> (rows w)
  end.
Proof.
  intros Hmiss. unfold search.
  destruct (negb (SearchParamsSchema params)); [discriminate|].
  unfold bind at 1, findUnique.
  destruct (cache_rejects w FindUnique); [discriminate|].
  rewrite Hmiss. intros Hrun.
  apply fetch_and_store_result in Hrun. exact Hrun.
Qed.

Section Searching.

Import JS RateLimiter Realtor Cache Trace.

Context `{Host}.

Variable this : RealtorProvider.


(** A search that misses the cache is the fetch phase. *)
Lemma search_miss (params : object) (fuel : nat) (w : World) :
  SearchParamsSchema params = true ->
  cache_rejects w FindUnique = false ->
  rows w !! computeHash params = None ->
  search this params fuel w
  = fetch_and_store this params (computeHash params) fuel
      (record (CacheRead (computeHash params)) w).
Proof.
  intros Hvalid Hcache Hmiss. rewrite search_valid by assumption.
  unfold bind at 1, findUnique. now rewrite Hcache, Hmiss.
Qed.


End Searching.


(** X13.  A valid query that names no endpoint (no [bbox], no [city]
    with [state], no [zip]: for instance a polygon alone) and is not in
    the cache is answered with no feature: no token is taken, no request
    is sent, and nothing is stored. *)
Theorem search_without_endpoint `{Host} (this : RealtorProvider)
    (params : JS.object) (fuel : nat) (w : World) :
  SearchParamsSchema params = true ->
  request_of params 1 = None ->
  cache_rejects w FindUnique = false ->
  rows w !! computeHash params = None ->
  (0 < fuel)%nat ->
  search this params fuel w
  = (Return [], record (CacheRead (computeHash params)) w).
Proof.
  intros Hvalid Hnone Hcache Hmiss Hfuel.
  rewrite (search_miss this params fuel w Hvalid Hcache Hmiss).
  destruct fuel as [|fuel]; [lia|].
  unfold fetch_and_store, try_catch, bind at 1. cbn [pages].
  unfold bind at 1, fetchPage. now rewrite Hnone.
Qed.

(** X14.  When [REALTOR_MAX_RETRIES] does not parse to a number, or
    parses to a negative one, the retry loop has no iteration: every
    search that has to fetch fails with the error that names the page,
    and no token is taken and no request is sent. *)
Theorem search_without_retry_budget `{Host} (this : RealtorProvider)
    (params : JS.object) (fuel : nat) (w : World) (req : Request) :
  match maxRetries this with
  | Some m => m < 0
  | None => True
  end ->
  SearchParamsSchema params = true ->
  request_of params 1 = Some req ->
  cache_rejects w FindUnique = false ->
  rows w !! computeHash params = None ->
  (0 < fuel)%nat ->
  search this params fuel w
  = (Throw (FetchExhausted 1), record (CacheRead (computeHash params)) w).
Proof.
  intros Hbudget Hvalid Hreq Hcache Hmiss Hfuel.
  rewrite (search_miss this params fuel w Hvalid Hcache Hmiss).
  destruct fuel as [|fuel]; [lia|].
  assert (iterations this = 0%nat) as Hit.
  { unfold iterations. destruct (maxRetries this) as [m|]; lia. }
  unfold fetch_and_store, try_catch, bind at 1. cbn [pages].
  unfold bind at 1, fetchPage. now rewrite Hreq, Hit.
Qed.

Section Transform.

Import JS RateLimiter Realtor Cache Trace.

Context `{Host}.


(** Listings that carry an id are transformed without a side effect. *)
Lemma transform_all_pure (listings : list value) (w : World) :
  forallb has_id listings = true ->
  transform_all listings w
  = (Return (omap (transformListing (of_Z 0)) listings), w).
Proof.
  induction listings as [|x rest IH]; intros Hall; [reflexivity|].
  cbn [forallb] in Hall. apply andb_prop in Hall as [Hx Hrest].
  cbn [transform_all omap].
  assert ((negb (is_nullish x) && draws_random x)%bool = false) as ->.
  { unfold has_id in Hx. destruct (is_nullish x), (draws_random x);
      cbn in *; congruence. }
  unfold bind at 1. cbn [ret]. unfold bind at 1. rewrite (IH Hrest).
  unfold ret.
  change (omap (transformListing (of_Z 0)) (x :: rest))
    with (match transformListing (of_Z 0) x with
          | Some f => f :: omap (transformListing (of_Z 0)) rest
          | None => omap (transformListing (of_Z 0)) rest
          end).
  reflexivity.
Qed.

End Transform.


Section Paging.

Import JS RateLimiter Realtor Cache Trace.

Context `{Host}.

Variable this : RealtorProvider.

Lemma geb_of_Z (a b : Z) : geb (of_Z a) (of_Z b) = (b <=? a).
Proof.
  unfold geb, leb, of_Z. apply eq_true_iff_eq.
  now rewrite Qle_bool_iff, <- Zle_Qle, Z.leb_le.
Qed.

Lemma leb_of_Z (a b : Z) : leb (of_Z a) (of_Z b) = (a <=? b).
Proof. apply (geb_of_Z b a). Qed.

(** A body that holds listings is an object. *)
Lemma listings_truthy (body : value) (items : list value) :
  listings_of body = Arr items -> items <> [] -> truthy body = true.
Proof.
  intros Hlist Hsome.
  destruct body; try reflexivity; cbn in Hlist; congruence.
Qed.

Lemma length_is_zero_items (items : list value) :
  items <> [] -> length_is_zero (Arr items) = false.
Proof. now destruct items. Qed.

(** The pagination loop from page [p + 1] on, when [n] pages are left
    and the upstream serves each of them. *)
Lemma pages_collect (params : object) (items : nat -> list value)
    (total : nat) (w : World) (m : Z) :
  maxRetries this = Some m -> 0 <= m ->
  (forall k, (k < total)%nat ->
     answers_page params w k total (items k)
     /\ forallb has_id (items k) = true) ->
  forall (n p fuel : nat) (acc : list GeoJSONFeature) (w1 : World),
    (p + n = total)%nat -> (0 < n)%nat -> (n <= fuel)%nat ->
    after_fetches p w w1 ->
    exists w',
      pages this params fuel (Z.of_nat p + 1) acc w1
      = (Return
           (acc ++ concat (map (fun k => omap (transformListing (of_Z 0))
                                          (items k))
                             (seq p n))),
         w')
      /\ after_fetches total w w'.
Proof.
  intros Hm Hm0 Hserved.
  induction n as [|n IH]; intros p fuel acc w1 Hsum Hn Hfuel Hw1; [lia|].
  destruct fuel as [|fuel]; [lia|].
  destruct (Hserved p) as
    ((req & r & body & Hreq & Hup & Hok & Hjson & Hlist & Hsome & Htotal)
     & Hids); [lia|].
  cbn [pages]. unfold bind at 1, fetchPage.
  rewrite Hreq, (iterations_exact this m Hm Hm0).
  destruct (attempts_success this req (Z.of_nat p + 1) (Z.to_nat m) 0 None
              w1 r body) as (w2 & -> & Hw2); auto.
  { destruct Hw1 as (-> & -> & _). exact Hup. }
  rewrite (listings_truthy body (items p) Hlist Hsome). cbn [negb].
  rewrite Hlist, (length_is_zero_items _ Hsome), Htotal.
  unfold bind at 1. rewrite (transform_all_pure (items p) w2 Hids).
  rewrite geb_of_Z, leb_of_Z.
  pose proof (after_fetches_trans _ _ _ _ _ Hw1 Hw2) as Hnext.
  cbn [seq map concat].
  destruct n as [|n].
  - assert ((Z.of_nat total <=? Z.of_nat p + 1) = true) as -> by lia.
    exists w2. split.
    + cbn [ret seq map concat]. now rewrite app_nil_r.
    + now replace total with (p + 1)%nat by lia.
  - assert ((Z.of_nat total <=? Z.of_nat p + 1) = false) as -> by lia.
    assert ((Z.of_nat p + 1 + 1 <=? Z.of_nat total) = true) as -> by lia.
    destruct (IH (S p) fuel
                (acc ++ omap (transformListing (of_Z 0)) (items p)) w2)
      as (w' & Hrun & Hw'); try lia.
    { now replace (S p) with (p + 1)%nat by lia. }
    exists w'. split; [|exact Hw'].
    replace (Z.of_nat p + 1 + 1) with (Z.of_nat (S p) + 1) by lia.
    rewrite Hrun. now rewrite <- app_assoc.
Qed.

End Paging.

(** X16.  When the upstream announces [total] pages and serves each of
    them, a search that misses the cache sends one request per page, for
    the pages 1 to [total] in this order, returns the features of all
    pages in page order, and (when there is any) stores them under the
    hash of the query.  The listings carry an id or are [null], so that
    no random id is drawn. *)
Theorem search_collects_pages `{Host} (this : RealtorProvider)
    (params : JS.object) (fuel : nat) (w : World) (m : Z)
    (total : nat) (items : nat -> list JS.value) :
  SearchParamsSchema params = true ->
  cache_rejects w FindUnique = false ->
  cache_rejects w Upsert = false ->
  rows w !! computeHash params = None ->
  maxRetries this = Some m -> 0 <= m ->
  (0 < total <= fuel)%nat ->
  (forall k, (k < total)%nat ->
     Cache.answers_page params w k total (items k)
     /\ forallb Cache.has_id (items k) = true) ->
  let features :=
    concat (map (fun k => omap (transformListing (JS.of_Z 0)) (items k))
              (seq 0 total)) in
  exists w',
    search this params fuel w = (Return features, w')
    /\ fetch_count w' = (fetch_count w + total)%nat
    /\ rows w'
       = match features with
         | [] => rows w
         | _ =>
             <[computeHash params :=
                 {| payload :=
                      JSON_stringify (JS.Arr (map feature_value features));
                    createdAt := now w' |}]> (rows w)
         end.
Proof.
  intros Hvalid Hfind Hupsert Hmiss Hm Hm0 [Htotal Hfuel] Hserved features.
  set (w0 := record (CacheRead (computeHash params)) w).
  destruct (pages_collect this params items total w0 m Hm Hm0)
    with (n := total) (p := 0%nat) (fuel := fuel)
         (acc := @nil GeoJSONFeature) (w1 := w0)
    as (w1 & Hpages & (Hup & Hcount & Hrej & Hrows));
    try lia.
  { exact Hserved. }
  { apply after_fetches_refl. }
  change (Z.of_nat 0 + 1) with 1 in Hpages. cbn [app] in Hpages.
  fold features in Hpages.
  pose proof (search_miss this params fuel w Hvalid Hfind Hmiss) as Hsearch.
  fold w0 in Hsearch.
  assert (exists w',
             fetch_and_store this params (computeHash params) fuel w0
             = (Return features, w')
             /\ fetch_count w' = fetch_count w1) as (w' & Hrun & Hsame).
  { unfold fetch_and_store, try_catch, bind at 1. rewrite Hpages.
    destruct features as [|f rest] eqn:Ef; cbn [length Nat.ltb Nat.leb].
    - exists w1. split; reflexivity.
    - unfold bind, upsert. rewrite Hrej. cbn [w0 record cache_rejects].
      rewrite Hupsert. eexists. split; reflexivity. }
  exists w'. rewrite Hsearch. split; [exact Hrun|].
  split; [rewrite Hsame, Hcount; reflexivity|].
  pose proof (fetch_and_store_result this params _ fuel w0 w' features Hrun)
    as Hstored.
  destruct features; exact Hstored.
Qed.


Lemma search_miss_stores_result_witness :
  exists features w',
    @search Sample.host (Sample.provider ∅) Sample.zip_query 3
      (Sample.world ∅ Sample.serving)
    = (Return features, w')
    /\ features <> []
    /\ rows w'
       = {[ @computeHash Sample.host Sample.zip_query :=
              {| payload :=
                   @JSON_stringify Sample.host
                     (JS.Arr (map feature_value features));
                 createdAt := now w' |} ]}.
Proof.
  destruct (@search Sample.host (Sample.provider ∅) Sample.zip_query 3
              (Sample.world ∅ Sample.serving))
    as [[[|f features]| |] w'] eqn:Hrun;
    try (vm_compute in Hrun; discriminate).
  exists (f :: features), w'. split; [reflexivity|]. split; [discriminate|].
  exact (@search_miss_stores_result Sample.host (Sample.provider ∅)
           Sample.zip_query 3 (Sample.world ∅ Sample.serving) w'
           (f :: features) eq_refl Hrun).
Defined.


Lemma search_without_endpoint_witness :
  @search Sample.host (Sample.provider ∅) (Sample.polygon_query true) 3
    (Sample.world ∅ Sample.serving)
  = (Return [],
     record
       (CacheRead (@computeHash Sample.host (Sample.polygon_query true)))
       (Sample.world ∅ Sample.serving)).
Proof.
  apply (@search_without_endpoint Sample.host (Sample.provider ∅)
           (Sample.polygon_query true) 3 (Sample.world ∅ Sample.serving));
    try reflexivity.
  lia.
Defined.

Lemma search_without_retry_budget_witness :
  @search Sample.host (Sample.provider Cases.no_retries) Sample.zip_query 3
    (Sample.world Cases.no_retries Sample.serving)
  = (Throw (FetchExhausted 1),
     record (CacheRead (@computeHash Sample.host Sample.zip_query))
       (Sample.world Cases.no_retries Sample.serving)).
Proof.
  eapply (@search_without_retry_budget Sample.host
            (Sample.provider Cases.no_retries) Sample.zip_query 3
            (Sample.world Cases.no_retries Sample.serving));
    try reflexivity.
  lia.
Defined.

Lemma search_collects_pages_witness :
  exists features w',
    @search Sample.host (Sample.provider ∅) Sample.zip_query 5
      (Sample.world ∅ Cases.two_pages)
    = (Return features, w')
    /\ map (fun f => JS.lookup_field "listing_id" (properties f)) features
       = [JS.Str "p1"; JS.Str "p2"; JS.Str "p3"]
    /\ fetch_count w' = 2%nat.
Proof.
  edestruct (@search_collects_pages Sample.host (Sample.provider ∅)
               Sample.zip_query 5 (Sample.world ∅ Cases.two_pages) 5 2
               Cases.two_pages_items)
    as (w' & Hrun & Hcount & _);
    try reflexivity; try lia.
  - intros k Hk. destruct k as [|[|k]]; [| |lia].
    + split; [|reflexivity].
      do 3 eexists. repeat split; try reflexivity. discriminate.
    + split; [|reflexivity].
      do 3 eexists. repeat split; try reflexivity. discriminate.
  - do 2 eexists. split; [exact Hrun|]. split; [reflexivity|exact Hcount].
Defined.

Section Expired.

Import JS RateLimiter Realtor Cache Trace.

Context `{Host}.

Variable this : RealtorProvider.

(** The fetch phase writes to the cache only when it returns
    features. *)
Lemma fetch_and_store_keeps (params : object) (hash : string) (fuel : nat)
    (w w' : World) (o : outcome (list GeoJSONFeature)) :
  fetch_and_store this params hash fuel w = (o, w') ->
  match o with
  | Return (_ :: _) => True
  | _ => rows w' = rows w
  end.
Proof.
  unfold fetch_and_store, try_catch, bind at 1.
  pose proof (keeps_pages this params fuel 1 [] w) as Hkeep.
  destruct (pages this params fuel 1 [] w) as [[all|e|] w1];
    cbn [snd] in Hkeep; cbn [throw]; try (intros [= <- <-]; exact Hkeep).
  destruct all as [|f all]; cbn [length Nat.ltb Nat.leb].
  - cbn. intros [= <- <-]. exact Hkeep.
  - unfold bind, upsert. destruct (cache_rejects w1 Upsert).
    + intros [= <- <-]. exact Hkeep.
    + cbn [ret]. intros [= <- <-]. exact I.
Qed.

End Expired.

(** X29.  An expired row is deleted before the upstream is asked, and
    nothing brings it back: when the search that found it fails (the
    upstream is down, the retries are exhausted, the store fails) or
    returns no feature, the cache is left without a row for the query;
    the stale result is lost. *)
Theorem search_expired_row_is_lost `{Host} (this : RealtorProvider)
    (params : JS.object) (fuel : nat) (w : World) (row : CacheRow) :
  SearchParamsSchema params = true ->
  cache_rejects w FindUnique = false ->
  cache_rejects w Delete = false ->
  rows w !! computeHash params = Some row ->
  fresh this (now w) row = false ->
  match fst (search this params fuel w) with
  | Return (_ :: _) => True
  | _ =>
      rows (snd (search this params fuel w))
      = delete (computeHash params) (rows w)
  end.
Proof.
  intros Hvalid Hfind Hdel Hrow Hstale.
  destruct (search this params fuel w) as [o w'] eqn:Hrun. cbn [fst snd].
  rewrite (search_expired this params fuel w row Hvalid Hfind Hrow Hstale
             Hdel) in Hrun.
  exact (fetch_and_store_keeps this params (computeHash params) fuel _ w' o
           Hrun).
Qed.

Lemma search_expired_row_is_lost_witness :
  let w := Sample.with_cache Sample.cached Sample.healthy (25 * Sample.hour)
             (Sample.world ∅ Sample.unreachable) in
  rows w !! @computeHash Sample.host Sample.zip_query
  = Some {| payload := "[]"; createdAt := 0 |}
  /\ fst (@search Sample.host (Sample.provider ∅) Sample.zip_query 3 w)
     = Throw (NetworkFailure "fetch failed")
  /\ rows (snd (@search Sample.host (Sample.provider ∅) Sample.zip_query 3 w))
     = delete (@computeHash Sample.host Sample.zip_query) (rows w).
Proof.
  intros w. split; [reflexivity|].
  assert (fst (@search Sample.host (Sample.provider ∅) Sample.zip_query 3 w)
          = Throw (NetworkFailure "fetch failed")) as Hfails
      by (vm_compute; reflexivity).
  split; [exact Hfails|].
  pose proof (@search_expired_row_is_lost Sample.host (Sample.provider ∅)
                Sample.zip_query 3 w {| payload := "[]"; createdAt := 0 |}
                eq_refl eq_refl eq_refl eq_refl) as Hlost.
  rewrite Hfails in Hlost. apply Hlost.
  vm_compute. reflexivity.
Defined.

(** ** transformListing, computeHash and the request *)

Section Listing.

Import JS Realtor.

Context `{Host}.

Lemma transformListing_properties (rnd : number) (listing : value)
    (f : GeoJSONFeature) :
  transformListing rnd listing = Some f ->
  properties f
  = set_field "source" (Str "realtor16")
      (set_field "baths" (baths_of (get_opt listing "baths"))
         (set_field "beds" (beds_of (get_opt listing "beds"))
            (set_field "price"
               (Num (parsePrice (rawPrice (get_opt listing "price")
                                   (get_opt listing "list_price"))))
               (set_field "listing_id"
                  (Str (to_string
                          (or_else (get_opt listing "listing_id")
                             (or_else (get_opt listing "id")
                                (Str (random_id rnd))))))
                  (spread listing))))).
Proof.
  unfold transformListing. destruct (is_nullish listing); [discriminate|].
  now intros [= <-].
Qed.

Lemma or_number_not_NaN (a : number) : isNaN (or_number a (of_Z 0)) = false.
Proof.
  unfold or_number. destruct a as [| | |q]; try reflexivity.
  cbn. now destruct (Qeq_bool q 0).
Qed.

Lemma beds_of_shape (beds : value) :
  match beds_of beds with
  | Undefined | Null | Str _ | Num NaN => False
  | _ => True
  end.
Proof.
  destruct beds as [| |b|n|s|items|fields];
    unfold beds_of, or_else; cbn [truthy]; try exact I.
  - destruct b; exact I.
  - destruct n as [| | |q]; cbn [truthy_number]; try exact I.
    destruct (negb (Qeq_bool q 0)); exact I.
  - pose proof (or_number_not_NaN (of_int (parseInt s))) as Hn.
    now destruct (or_number _ _).
Qed.

Lemma baths_of_shape (baths : value) :
  match baths_of baths with
  | Undefined | Null | Str _ | Num NaN => False
  | _ => True
  end.
Proof.
  destruct baths as [| |b|n|s|items|fields];
    unfold baths_of, or_else; cbn [truthy]; try exact I.
  - destruct b; exact I.
  - destruct n as [| | |q]; cbn [truthy_number]; try exact I.
    destruct (negb (Qeq_bool q 0)); exact I.
  - pose proof (or_number_not_NaN (parseFloat s)) as Hn.
    now destruct (or_number _ _).
Qed.

End Listing.

(** X17.  The properties of a feature are those of the raw listing with
    five of them set: [source] is always [realtor16], whatever the
    listing says; [listing_id] is always a string; every property other
    than [listing_id], [price], [beds], [baths] and [source] is passed
    through unchanged. *)
Theorem transformListing_keeps_fields `{Host} (rnd : JS.number)
    (listing : JS.value) (f : GeoJSONFeature) :
  transformListing rnd listing = Some f ->
  JS.lookup_field "source" (properties f) = JS.Str "realtor16"
  /\ (exists id, JS.lookup_field "listing_id" (properties f) = JS.Str id)
  /\ forall k,
       k ∉ ["listing_id"; "price"; "beds"; "baths"; "source"] ->
       JS.lookup_field k (properties f) = JS.lookup_field k (spread listing).
Proof.
  intros Hf. rewrite (transformListing_properties rnd listing f Hf).
  split; [apply lookup_set_field_eq|]. split.
  - eexists. rewrite !lookup_set_field_ne by discriminate.
    apply lookup_set_field_eq.
  - intros k Hk.
    rewrite !lookup_set_field_ne; [reflexivity|..];
      intros ->; apply Hk; rewrite !elem_of_cons; tauto.
Qed.

Lemma transformListing_keeps_fields_witness :
  exists f,
    @transformListing Sample.host (JS.Fin (1 # 2))
      (JS.Obj [("id", JS.Num (JS.of_Z 77)); ("source", JS.Str "mls");
               ("county", JS.Str "Taney")])
    = Some f
    /\ JS.lookup_field "source" (properties f) = JS.Str "realtor16"
    /\ JS.lookup_field "listing_id" (properties f) = JS.Str "77"
    /\ JS.lookup_field "county" (properties f) = JS.Str "Taney".
Proof.
  eexists. split; [reflexivity|].
  destruct (@transformListing_keeps_fields Sample.host (JS.Fin (1 # 2))
              (JS.Obj [("id", JS.Num (JS.of_Z 77)); ("source", JS.Str "mls");
                       ("county", JS.Str "Taney")]) _ eq_refl)
    as (Hsource & _ & Hkeep).
  split; [exact Hsource|]. split; [reflexivity|].
  apply (Hkeep "county").
  repeat (apply not_elem_of_cons; split; [discriminate|]).
  apply not_elem_of_nil.
Defined.

(** X18.  Whatever the raw listing holds, the [beds] and [baths] of a
    feature are present and are never a string, [null], [undefined] or
    NaN: a string is parsed, and what is missing, empty or unparsable
    becomes 0. *)
Theorem transformListing_beds_baths `{Host} (rnd : JS.number)
    (listing : JS.value) (f : GeoJSONFeature) :
  transformListing rnd listing = Some f ->
  forall k, k = "beds" \/ k = "baths" ->
    match JS.lookup_field k (properties f) with
    | JS.Undefined | JS.Null | JS.Str _ | JS.Num JS.NaN => False
    | _ => True
    end.
Proof.
  intros Hf k [-> | ->];
    rewrite (transformListing_properties rnd listing f Hf).
  - rewrite !lookup_set_field_ne by discriminate.
    rewrite lookup_set_field_eq. apply beds_of_shape.
  - rewrite !lookup_set_field_ne by discriminate.
    rewrite lookup_set_field_eq. apply baths_of_shape.
Qed.

Lemma transformListing_beds_baths_witness :
  exists f,
    @transformListing Sample.host (JS.Fin (1 # 2))
      (JS.Obj [("id", JS.Str "a1"); ("beds", JS.Str "3 bedrooms");
               ("baths", JS.Str "n/a")])
    = Some f
    /\ JS.lookup_field "beds" (properties f) = JS.Num (JS.of_Z 3)
    /\ JS.lookup_field "baths" (properties f) = JS.Num (JS.of_Z 0)
    /\ match JS.lookup_field "beds" (properties f) with
       | JS.Undefined | JS.Null | JS.Str _ | JS.Num JS.NaN => False
       | _ => True
       end.
Proof.
  eexists. split; [reflexivity|]. split; [reflexivity|].
  split; [reflexivity|].
  exact (@transformListing_beds_baths Sample.host (JS.Fin (1 # 2))
           (JS.Obj [("id", JS.Str "a1"); ("beds", JS.Str "3 bedrooms");
                    ("baths", JS.Str "n/a")]) _ eq_refl "beds"
           (or_introl eq_refl)).
Defined.

(** X19.  A coordinate that is the number 0 counts as missing: for a
    listing whose [latitude] is 0 (or NaN) and that gives no latitude
    under another name, every position of the ring holds NaN in its
    second place, and the polygon is not a valid one.  The same holds
    for a [longitude] of 0 and the first place. *)
Theorem transformListing_zero_coordinate `{Host} (rnd : JS.number)
    (o : JS.object) (f : GeoJSONFeature) (z : JS.number) :
  transformListing rnd (JS.Obj o) = Some f ->
  JS.truthy_number z = false ->
  JS.lookup_field "location" o = JS.Undefined ->
  (JS.lookup_field "latitude" o = JS.Num z ->
   JS.lookup_field "lat" o = JS.Undefined ->
   Forall (fun p => snd p = JS.NaN) (hd [] (coordinates (geometry f)))
   /\ valid_closed_polygon (geometry f) = false)
  /\ (JS.lookup_field "longitude" o = JS.Num z ->
      JS.lookup_field "lon" o = JS.Undefined ->
      Forall (fun p => fst p = JS.NaN) (hd [] (coordinates (geometry f)))
      /\ valid_closed_polygon (geometry f) = false).
Proof.
  unfold transformListing. cbn [JS.is_nullish]. intros [= <-] Hz Hloc.
  cbn [geometry coordinates].
  unfold latVal, lonVal, coordinate_of, JS.get_opt, JS.get. rewrite Hloc.
  cbn [JS.lookup_field].
  assert (parseFloat_of
            (JS.or_else (JS.Num z) (JS.or_else JS.Undefined JS.Undefined))
          = JS.NaN) as Hnan.
  { unfold JS.or_else. cbn [JS.truthy]. now rewrite Hz. }
  split; intros -> ->; rewrite Hnan.
  - set (lon := parseFloat_of _).
    split; [repeat constructor|].
    pose proof (square_numeric lon JS.NaN) as Hnum.
    rewrite andb_false_r in Hnum.
    unfold valid_closed_polygon. cbn [geometry_type coordinates].
    unfold square in *. cbn [hd] in Hnum. rewrite Hnum.
    reflexivity.
  - set (lat := parseFloat_of _).
    split; [repeat constructor|].
    pose proof (square_numeric JS.NaN lat) as Hnum.
    cbn [JS.isNaN negb andb] in Hnum.
    unfold valid_closed_polygon. cbn [geometry_type coordinates].
    unfold square in *. cbn [hd] in Hnum. rewrite Hnum.
    reflexivity.
Qed.

Lemma transformListing_zero_coordinate_witness :
  exists f,
    @transformListing Sample.host (JS.Fin (1 # 2))
      (JS.Obj [("id", JS.Str "eq1"); ("latitude", JS.Num (JS.of_Z 0));
               ("longitude", JS.Num (JS.of_Z 32))])
    = Some f
    /\ Forall (fun p => snd p = JS.NaN) (hd [] (coordinates (geometry f)))
    /\ valid_closed_polygon (geometry f) = false.
Proof.
  eexists. split; [reflexivity|].
  exact (proj1 (@transformListing_zero_coordinate Sample.host (JS.Fin (1 # 2))
                  [("id", JS.Str "eq1"); ("latitude", JS.Num (JS.of_Z 0));
                   ("longitude", JS.Num (JS.of_Z 32))] _ (JS.of_Z 0)
                  eq_refl eq_refl eq_refl)
           eq_refl eq_refl).
Defined.

Section Sorted.

Import JS Realtor.



End Sorted.


(** X21.  What never reaches the upstream: a search parameter other
    than [bbox], [city], [state], [zip] and [radius] (the polygon, for
    one) has no influence on the request, and for a query with a [bbox]
    the [radius] parameter has none either, the radius sent being the
    one computed from the box. *)
Theorem request_of_ignores `{Host} (params : JS.object) (page : Z)
    (k : string) (v : JS.value) :
  (k ∉ ["bbox"; "city"; "state"; "zip"; "radius"] ->
   request_of (set_field k v params) page = request_of params page)
  /\ (JS.truthy (JS.lookup_field "bbox" params) = true ->
      request_of (set_field "radius" v params) page
      = request_of params page).
Proof.
  split.
  - intros Hk. unfold request_of.
    rewrite !(lookup_set_field_ne _ k); [reflexivity|..];
      intros <-; apply Hk; rewrite !elem_of_cons; tauto.
  - intros Hbbox. unfold request_of.
    rewrite (lookup_set_field_ne "bbox" "radius") by discriminate.
    now rewrite Hbbox.
Qed.

Lemma request_of_ignores_witness :
  @request_of Sample.host
    (set_field "polygon" (JS.Obj [("type", JS.Str "Polygon")])
       Sample.zip_query) 1
  = @request_of Sample.host Sample.zip_query 1
  /\ @request_of Sample.host
       (set_field "radius" (JS.Num (JS.of_Z 50))
          [("bbox", JS.Arr [JS.Num (JS.of_Z (-94)); JS.Num (JS.of_Z 36);
                            JS.Num (JS.of_Z (-93)); JS.Num (JS.of_Z 37)])]) 1
     = @request_of Sample.host
         [("bbox", JS.Arr [JS.Num (JS.of_Z (-94)); JS.Num (JS.of_Z 36);
                           JS.Num (JS.of_Z (-93)); JS.Num (JS.of_Z 37)])] 1.
Proof.
  split.
  - apply (proj1 (@request_of_ignores Sample.host Sample.zip_query 1
                    "polygon" (JS.Obj [("type", JS.Str "Polygon")]))).
    repeat (apply not_elem_of_cons; split; [discriminate|]).
    apply not_elem_of_nil.
  - apply (proj2 (@request_of_ignores Sample.host
                    [("bbox", JS.Arr [JS.Num (JS.of_Z (-94));
                                      JS.Num (JS.of_Z 36);
                                      JS.Num (JS.of_Z (-93));
                                      JS.Num (JS.of_Z 37)])] 1
                    "radius" (JS.Num (JS.of_Z 50)))).
    reflexivity.
Defined.

(** ** The ingestion route *)

Section IngestRoute.

Import JS RateLimiter Realtor Ingest.

Context `{Host}.





End IngestRoute.


(** X23.  What each reply of the ingestion route means: 400 is answered
    exactly when the request names neither coordinates, nor a city with
    its state, nor a zip; 200 carries the features the search returned;
    every error of the search (invalid parameters, rate limiting, an
    upstream or cache failure) is answered with 502; and no error
    escapes the route. *)
Theorem ingest_reply_sound `{Host} (env : gmap string string)
    (q : Ingest.Query) (fuel : nat) (w : World) :
  let provider := fst (constructor env (now w) (registry w)) in
  let w1 := set_registry (snd (constructor env (now w) (registry w))) w in
  match fst (Ingest.GET env q fuel w) with
  | Return Ingest.MissingParameters => Ingest.params_of q = None
  | Return (Ingest.FeatureCollection features _) =>
      exists params,
        Ingest.params_of q = Some params
        /\ fst (search provider params fuel w1) = Return features
  | Return Ingest.ExternalFailure =>
      exists params e,
        Ingest.params_of q = Some params
        /\ fst (search provider params fuel w1) = Throw e
  | Throw _ => False
  | OutOfFuel =>
      exists params,
        Ingest.params_of q = Some params
        /\ fst (search provider params fuel w1) = OutOfFuel
  end.
Proof.
  intros provider w1. unfold Ingest.GET.
  destruct (Ingest.params_of q) as [params|]; [|reflexivity].
  unfold try_catch, bind, Ingest.construct. subst provider w1.
  cbn [constructor fst snd].
  destruct (search _ params fuel _) as [[features|e|] w2] eqn:Hrun;
    cbn [fst ret].
  - exists params. now rewrite Hrun.
  - exists params, e. now rewrite Hrun.
  - exists params. now rewrite Hrun.
Qed.


(** ** The helpers around the provider *)

Section Midpoint.

Import JS RateLimiter Realtor.


End Midpoint.



Section Polygon.

Import JS GeoUtils.

Lemma crossings_same_side (x y : number) (side : bool)
    (polygon : list (number * number)) (vj : number * number)
    (inside : bool) :
  Forall (fun v => gtb (snd v) y = side) polygon ->
  gtb (snd vj) y = side ->
  crossings x y polygon vj inside = inside.
Proof.
  intros Hall. revert vj inside.
  induction Hall as [|vi rest Hvi Hrest IH]; intros vj inside Hvj;
    [reflexivity|].
  cbn [crossings]. unfold intersect.
  destruct vi as [xi yi], vj as [xj yj]. cbn [snd] in *.
  rewrite Hvi, Hvj, eqb_reflx. cbn [negb andb]. now apply IH.
Qed.

Lemma Qltb_comp (x a b : Q) : (a == b)%Q -> Qltb x a = Qltb x b.
Proof.
  intros Hab. unfold Qltb. f_equal. apply eq_true_iff_eq.
  now rewrite !Qle_bool_iff, Hab.
Qed.

Lemma Qsign_nonzero (q : Q) : ~ (q == 0)%Q -> Qsign q <> Eq.
Proof.
  unfold Qsign, Qeq. destruct q as [n d]. cbn. intros Hq Hn.
  apply Hq. apply Z.compare_eq in Hn. lia.
Qed.

(** Where the horizontal line through the point meets a vertical
    edge. *)
Lemma vertical_edge (x a u c e : Q) :
  ~ (c == e)%Q ->
  ltb (Fin x)
    (add (div (mul (sub (Fin a) (Fin a)) (sub (Fin u) (Fin e)))
            (sub (Fin c) (Fin e)))
       (Fin a))
  = Qltb x a.
Proof.
  intros Hce. cbn [sub neg add mul].
  set (D := Qred (c + Qred (- e))).
  set (N := Qred (Qred (a + Qred (- a)) * Qred (u + Qred (- e)))).
  assert (Qsign D <> Eq) as Hsign.
  { apply Qsign_nonzero. subst D. rewrite !Qred_correct. lra. }
  assert (N == 0)%Q as HN.
  { subst N. rewrite !Qred_correct. ring. }
  assert (Qred (Qred (N / D) + a) == a)%Q as Hval.
  { rewrite !Qred_correct, HN. unfold Qdiv. ring. }
  cbn [div]. destruct (Qsign D); [congruence| |];
    cbn [add ltb]; now apply Qltb_comp.
Qed.

End Polygon.

(** X25.  A point whose horizontal line no edge crosses is outside: when
    every vertex of the polygon lies strictly above the point, or none
    does (for one, when the polygon is empty), [isPointInPolygon]
    answers false. *)
Theorem isPointInPolygon_outside_band (x y : JS.number) (side : bool)
    (polygon : list (JS.number * JS.number)) :
  Forall (fun v => JS.gtb (snd v) y = side) polygon ->
  GeoUtils.isPointInPolygon (x, y) polygon = false.
Proof.
  intros Hall. unfold GeoUtils.isPointInPolygon.
  destruct (last polygon) as [vj|] eqn:Hlast; [|reflexivity].
  apply (crossings_same_side x y side); [assumption|].
  apply last_Some in Hlast as [l' ->].
  apply Forall_app in Hall as [_ Hvj].
  now inversion Hvj.
Qed.

Lemma isPointInPolygon_outside_band_witness :
  GeoUtils.isPointInPolygon (JS.of_Z 5, JS.of_Z 11)
    [(JS.of_Z 0, JS.of_Z 0); (JS.of_Z 10, JS.of_Z 0);
     (JS.of_Z 10, JS.of_Z 10); (JS.of_Z 5, JS.of_Z 5);
     (JS.of_Z 0, JS.of_Z 10); (JS.of_Z 0, JS.of_Z 0)]
  = false.
Proof.
  apply (isPointInPolygon_outside_band (JS.of_Z 5) (JS.of_Z 11) false).
  repeat constructor.
Defined.

(** X26.  On a rectangle given as a closed ring, [isPointInPolygon] is
    the box test: a point is inside exactly when [x0 <= x < x1] and
    [y0 <= y < y1]; the left and the bottom side belong to the
    rectangle, the right and the top side do not. *)
Theorem isPointInPolygon_rectangle (x0 x1 y0 y1 x y : Q) :
  (x0 < x1)%Q -> (y0 < y1)%Q ->
  GeoUtils.isPointInPolygon (JS.Fin x, JS.Fin y)
    [(JS.Fin x0, JS.Fin y0); (JS.Fin x1, JS.Fin y0);
     (JS.Fin x1, JS.Fin y1); (JS.Fin x0, JS.Fin y1);
     (JS.Fin x0, JS.Fin y0)]
  = Qle_bool x0 x && JS.Qltb x x1 && Qle_bool y0 y && JS.Qltb y y1.
Proof.
  intros Hx Hy. unfold GeoUtils.isPointInPolygon.
  cbn [last GeoUtils.crossings]. unfold GeoUtils.intersect.
  rewrite !eqb_reflx. cbn [negb andb].
  rewrite (vertical_edge x x1 y y0 y1) by lra.
  rewrite (vertical_edge x x0 y y1 y0) by lra.
  cbn [JS.gtb JS.ltb].
  assert (JS.Qltb y y0 = true -> JS.Qltb y y1 = true) as Hys.
  { rewrite !Qltb_lt. lra. }
  assert (JS.Qltb x x0 = true -> JS.Qltb x x1 = true) as Hxs.
  { rewrite !Qltb_lt. lra. }
  assert (Qle_bool x0 x = negb (JS.Qltb x x0)) as ->
      by (unfold JS.Qltb; now rewrite negb_involutive).
  assert (Qle_bool y0 y = negb (JS.Qltb y y0)) as ->
      by (unfold JS.Qltb; now rewrite negb_involutive).
  destruct (JS.Qltb y y0), (JS.Qltb y y1), (JS.Qltb x x0), (JS.Qltb x x1);
    try reflexivity;
    try (specialize (Hys eq_refl); discriminate);
    try (specialize (Hxs eq_refl); discriminate).
Qed.

Lemma isPointInPolygon_rectangle_witness :
  GeoUtils.isPointInPolygon (JS.Fin 5, JS.Fin 5)
    [(JS.Fin 0, JS.Fin 0); (JS.Fin 10, JS.Fin 0); (JS.Fin 10, JS.Fin 10);
     (JS.Fin 0, JS.Fin 10); (JS.Fin 0, JS.Fin 0)]
  = true
  /\ GeoUtils.isPointInPolygon (JS.Fin 10, JS.Fin 5)
       [(JS.Fin 0, JS.Fin 0); (JS.Fin 10, JS.Fin 0); (JS.Fin 10, JS.Fin 10);
        (JS.Fin 0, JS.Fin 10); (JS.Fin 0, JS.Fin 0)]
     = false.
Proof.
  split.
  - rewrite (isPointInPolygon_rectangle 0 10 0 10 5 5); reflexivity.
  - rewrite (isPointInPolygon_rectangle 0 10 0 10 10 5); reflexivity.
Defined.

Section Mapping.

Import JS Realtor PropertyMapper.

Variable Date_of : value -> option Z.

Variable now : Z.

Lemma validateAndMap_fields (data : value) (p : Property) :
  validateAndMap Date_of now data = Some p ->
  exists o,
    data = Obj o
    /\ z_number (lookup_field "latitude" o) = true
    /\ z_number (lookup_field "longitude" o) = true
    /\ z_int (lookup_field "price" o) = true
    /\ latitude p = number_of (lookup_field "latitude" o)
    /\ longitude p = number_of (lookup_field "longitude" o)
    /\ price p = number_of (lookup_field "price" o)
    /\ externalId p = string_or_null (lookup_field "externalId" o)
    /\ county p = string_or_null (lookup_field "county" o)
    /\ lotSize p = number_or_null (lookup_field "lotSize" o).
Proof.
  unfold validateAndMap. destruct data as [| | | | | |o]; try discriminate.
  destruct (_ && _) eqn:Hschema; [|discriminate].
  destruct (z_date Date_of now (lookup_field "lastFetchedAt" o)),
    (z_date Date_of now (lookup_field "createdAt" o));
    try discriminate.
  intros [= <-]. exists o. cbn.
  repeat (apply andb_prop in Hschema as [Hschema ?]).
  repeat split; assumption.
Qed.

End Mapping.

(** X27.  No feature of the Realtor provider passes the property
    mapper: a GeoJSON feature holds its data under [properties] and has
    no top-level [latitude], so [validateAndMap] returns [null] for it,
    and [toInternalArray] of the result of a search is empty, whatever
    the listings were. *)
Theorem provider_features_fail_mapping (Date_of : JS.value -> option Z)
    (now : Z) (features : list GeoJSONFeature) :
  (forall f, PropertyMapper.validateAndMap Date_of now (feature_value f)
             = None)
  /\ PropertyMapper.toInternalArray Date_of now (map feature_value features)
     = [].
Proof.
  assert (forall f, PropertyMapper.validateAndMap Date_of now (feature_value f)
                    = None) as Hnone by reflexivity.
  split; [exact Hnone|].
  induction features as [|f rest IH]; [reflexivity|].
  cbn [map PropertyMapper.toInternalArray]. now rewrite Hnone.
Qed.

(** X28.  What every mapped property satisfies: its coordinates are
    numbers (not NaN), its price is a whole number, and an empty
    [externalId] or [county] and a [lotSize] of 0 have become
    [null]. *)
Theorem validateAndMap_sound (Date_of : JS.value -> option Z) (now : Z)
    (data : JS.value) (p : PropertyMapper.Property) :
  PropertyMapper.validateAndMap Date_of now data = Some p ->
  JS.isNaN (PropertyMapper.latitude p) = false
  /\ JS.isNaN (PropertyMapper.longitude p) = false
  /\ (exists z, PropertyMapper.price p = JS.Fin z
                /\ (z == inject_Z (Qfloor z))%Q)
  /\ PropertyMapper.externalId p <> Some EmptyString
  /\ PropertyMapper.county p <> Some EmptyString
  /\ (forall n, PropertyMapper.lotSize p = Some n ->
                JS.truthy_number n = true).
Proof.
  intros Hmap.
  destruct (validateAndMap_fields Date_of now data p Hmap)
    as (o & _ & Hlat & Hlon & Hprice & -> & -> & -> & -> & -> & ->).
  repeat split.
  - destruct (JS.lookup_field "latitude" o); try discriminate.
    cbn in *. now apply negb_true_iff.
  - destruct (JS.lookup_field "longitude" o); try discriminate.
    cbn in *. now apply negb_true_iff.
  - destruct (JS.lookup_field "price" o) as [| | |[| | |z]| | |];
      try discriminate.
    exists z. split; [reflexivity|]. now apply Qeq_bool_iff.
  - destruct (JS.lookup_field "externalId" o) as [| | | |s| |];
      try discriminate.
    cbn. destruct (String.eqb s EmptyString) eqn:E; [discriminate|].
    intros [= ->]. discriminate.
  - destruct (JS.lookup_field "county" o) as [| | | |s| |];
      try discriminate.
    cbn. destruct (String.eqb s EmptyString) eqn:E; [discriminate|].
    intros [= ->]. discriminate.
  - intros n. destruct (JS.lookup_field "lotSize" o) as [| | |m| | |];
      try discriminate.
    cbn. destruct (JS.truthy_number m) eqn:E; [|discriminate].
    now intros [= <-].
Qed.

Lemma validateAndMap_sound_witness :
  exists p,
    PropertyMapper.validateAndMap (fun _ => None) 1700000000000
      Cases.parcel
    = Some p
    /\ PropertyMapper.source p = "local"
    /\ PropertyMapper.externalId p = None
    /\ PropertyMapper.lotSize p = None
    /\ JS.isNaN (PropertyMapper.latitude p) = false.
Proof.
  eexists. split; [reflexivity|]. split; [reflexivity|].
  split; [reflexivity|]. split; [reflexivity|].
  exact (proj1 (validateAndMap_sound (fun _ => None) 1700000000000
                  Cases.parcel _ eq_refl)).
Defined.
